(** * Universal deduplication pipeline (src/src/splink_pipeline.py)

    A shallow embedding of the column classifier, the exact matcher, the
    blocking indexer, the fuzzy scorer, the tiered aggregator and the
    pipeline driver, and of the accuracy evaluation
    (src/src/evaluation.py), followed by the properties established about
    them.

    Modelling conventions.
    - A Python exception is a value of [exn]; a call that may raise returns
      [result A] and the statements after it are sequenced with [bind].
    - A string is a sequence of code points below 256; [lower], [strip] and
      [split] follow Python's [str] methods on that range.
    - Ratios and scores are exact rationals ([Q]) where Python uses
      binary floating point.
    - A DataFrame is a list of row labels and a list of columns; the frames
      [pd.read_csv] builds carry a RangeIndex, where label and position
      coincide.
    - Printing and wall-clock timing are not modelled. *)

From Stdlib Require Import List String Ascii Bool Arith ZArith QArith Lia.
From Stdlib Require Import Permutation Sorted DecimalString DecimalNat Lqa.
From Stdlib Require Import ListSet.
Import ListNotations.

Local Open Scope string_scope.
Local Open Scope list_scope.
Local Open Scope nat_scope.

(** ** Exceptions *)

Inductive exn : Type :=
| ZeroDivisionError
| KeyError (key : string)
| IndexError
| FileNotFoundError
| ParserError.

Inductive result (A : Type) : Type :=
| Ok (a : A)
| Raise (e : exn).
Arguments Ok {A} a.
Arguments Raise {A} e.

Definition bind {A B : Type} (r : result A) (k : A -> result B) : result B :=
  match r with
  | Ok a => k a
  | Raise e => Raise e
  end.

Notation "x <- c ;; k" := (bind c (fun x => k))
  (at level 61, c at next level, right associativity).

(** [for x in xs: acc = body(acc, x)], where the body may raise. *)
Fixpoint for_each {A S : Type} (body : S -> A -> result S) (xs : list A) (acc : S)
  : result S :=
  match xs with
  | [] => Ok acc
  | x :: xs' => acc' <- body acc x ;; for_each body xs' acc'
  end.

(** ** Python string operations *)

Module PyStr.

(** The upper-case letters below 256 are A-Z and U+00C0-U+00DE without the
    multiplication sign U+00D7; each is 32 below its lower-case form. *)
Definition lower_char (c : ascii) : ascii :=
  let n := nat_of_ascii c in
  if ((65 <=? n) && (n <=? 90))
     || ((192 <=? n) && (n <=? 222) && negb (n =? 215))
  then ascii_of_nat (n + 32) else c.

Fixpoint lower (s : string) : string :=
  match s with
  | EmptyString => EmptyString
  | String c s' => String (lower_char c) (lower s')
  end.

(** The characters for which [str.isspace] holds: TAB, LF, VT, FF, CR, FS,
    GS, RS, US, the space, NEL (U+0085) and the no-break space (U+00A0). *)
Definition is_space (c : ascii) : bool :=
  let n := nat_of_ascii c in
  ((9 <=? n) && (n <=? 13)) || ((28 <=? n) && (n <=? 32))
  || (n =? 133) || (n =? 160).

Fixpoint lstrip (s : string) : string :=
  match s with
  | EmptyString => EmptyString
  | String c s' => if is_space c then lstrip s' else s
  end.

Fixpoint rev_string (s acc : string) : string :=
  match s with
  | EmptyString => acc
  | String c s' => rev_string s' (String c acc)
  end.

Definition rstrip (s : string) : string :=
  rev_string (lstrip (rev_string s EmptyString)) EmptyString.

Definition strip (s : string) : string := rstrip (lstrip s).

(** [s[:n]] *)
Fixpoint take (n : nat) (s : string) : string :=
  match n, s with
  | S n', String c s' => String c (take n' s')
  | _, _ => EmptyString
  end.

(** [s.split()]: the maximal runs of non-space characters.  [cur] is the
    token being read, kept reversed. *)
Fixpoint split_aux (s cur : string) : list string :=
  match s with
  | EmptyString =>
      match cur with
      | EmptyString => []
      | _ => [rev_string cur EmptyString]
      end
  | String c s' =>
      if is_space c then
        match cur with
        | EmptyString => split_aux s' EmptyString
        | _ => rev_string cur EmptyString :: split_aux s' EmptyString
        end
      else split_aux s' (String c cur)
  end.

Definition split (s : string) : list string := split_aux s EmptyString.

(** [needle in hay] *)
Fixpoint contains (needle hay : string) : bool :=
  String.prefix needle hay ||
  match hay with
  | EmptyString => false
  | String _ hay' => contains needle hay'
  end.

(** [any(x in s for x in keywords)] *)
Definition any_in (keywords : list string) (s : string) : bool :=
  existsb (fun x => contains x s) keywords.

End PyStr.

(** ** Scalars, series and data frames *)

(** A cell of a frame.  [NaN] is the missing value; a finite [float64] is
    carried by the text [str] prints for it. *)
Inductive scalar : Type :=
| NaN
| Str (s : string)
| Int (z : Z)
| Float (repr : string)
| Bool (b : bool).

Definition scalar_eq_dec (x y : scalar) : {x = y} + {x <> y}.
Proof.
  decide equality;
    first [ apply string_dec | apply Z.eq_dec | apply Bool.bool_dec ].
Defined.

Definition scalar_eqb (x y : scalar) : bool :=
  if scalar_eq_dec x y then true else false.

(** [pd.isna(v)] *)
Definition isna (v : scalar) : bool :=
  match v with
  | NaN => true
  | _ => false
  end.

(** [str(v)] *)
Definition py_str (v : scalar) : string :=
  match v with
  | NaN => "nan"
  | Str s => s
  | Int z => NilZero.string_of_int (Z.to_int z)
  | Float repr => repr
  | Bool true => "True"
  | Bool false => "False"
  end.

Inductive Dtype : Type :=
| object_
| int64
| float64
| bool_
| category.

(** [pd.api.types.is_numeric_dtype] *)
Definition is_numeric_dtype (d : Dtype) : bool :=
  match d with
  | int64 | float64 | bool_ => true
  | object_ | category => false
  end.

(** [dtype == 'object'] *)
Definition is_object_dtype (d : Dtype) : bool :=
  match d with
  | object_ => true
  | _ => false
  end.

Record Series : Type := mkSeries {
  name : string;
  dtype : Dtype;
  values : list scalar
}.

(** [index] holds the row labels; [series] the columns, in order. *)
Record DataFrame : Type := mkDataFrame {
  index : list nat;
  series : list Series
}.

(** [len(df)] *)
Definition nrows (df : DataFrame) : nat := List.length (index df).

(** [df.columns] *)
Definition columns (df : DataFrame) : list string := map name (series df).

(** [col in df.columns] *)
Definition has_column (df : DataFrame) (col : string) : bool :=
  existsb (String.eqb col) (columns df).

Fixpoint find_series (ss : list Series) (col : string) : option Series :=
  match ss with
  | [] => None
  | s :: ss' => if String.eqb col (name s) then Some s else find_series ss' col
  end.

(** [df[col]] *)
Definition getitem (df : DataFrame) (col : string) : result Series :=
  match find_series (series df) col with
  | Some s => Ok s
  | None => Raise (KeyError col)
  end.

(** Column labels are distinct and every column is as long as the index. *)
Definition well_formed (df : DataFrame) : Prop :=
  NoDup (columns df) /\
  Forall (fun s => List.length (values s) = nrows df) (series df).

(** The index is [RangeIndex(len(df))], as in every frame that
    [pd.read_csv] returns. *)
Definition range_index (df : DataFrame) : Prop :=
  index df = seq 0 (nrows df).

(** ** Column classifier *)

Definition Qlt_bool (x y : Q) : bool := negb (Qle_bool y x).

(** The dictionary built by [classify_columns].  While the loop runs, the
    ['strings'] entry holds (column, uniqueness ratio) tuples. *)
Record col_types_acc : Type := mkAcc {
  acc_exact : list string;
  acc_names : list string;
  acc_text : list string;
  acc_strings : list (string * Q);
  acc_numbers : list string
}.

Record ColTypes : Type := mkColTypes {
  exact : list string;
  names : list string;
  text : list string;
  strings : list string;
  numbers : list string
}.

Definition exact_keywords : list string :=
  ["id"; "code"; "sku"; "order"; "claim"; "invoice"; "transaction"].

Definition name_keywords : list string :=
  ["name"; "customer"; "client"; "employee"; "product"; "item"; "guest"].

(** [df[col].dropna().astype(str).str.lower()] *)
Definition sample_of (s : Series) : list string :=
  map (fun v => PyStr.lower (py_str v))
      (filter (fun v => negb (isna v)) (values s)).

(** [sample.nunique()] *)
Definition nunique (sample : list string) : nat :=
  List.length (nodup string_dec sample).

(** [a / b] on two Python ints. *)
Definition py_div (a b : nat) : result Q :=
  match b with
  | O => Raise ZeroDivisionError
  | S _ => Ok (Z.of_nat a # Pos.of_nat b)
  end.

(** [sample.str.len().mean()]; only reached with a non-empty sample, the
    division above it having raised otherwise. *)
Definition mean_len (sample : list string) : Q :=
  Z.of_nat (list_sum (map String.length sample)) # Pos.of_nat (List.length sample).

Definition classify_body (df : DataFrame) (ct : col_types_acc) (col : string)
  : result col_types_acc :=
  if String.eqb col "record_id" then Ok ct
  else
    s <- getitem df col ;;
    let sample := sample_of s in
    unique_ratio <- py_div (nunique sample) (List.length sample) ;;
    let avg_len := mean_len sample in
    let col_lower := PyStr.lower col in
    if Qlt_bool (8 # 10) unique_ratio
       || PyStr.any_in exact_keywords col_lower
       || is_numeric_dtype (dtype s)
    then Ok (mkAcc (acc_exact ct ++ [col]) (acc_names ct) (acc_text ct)
                   (acc_strings ct) (acc_numbers ct))
    else if Qlt_bool (1 # 10) unique_ratio && Qlt_bool unique_ratio (8 # 10)
            && PyStr.any_in name_keywords col_lower
    then Ok (mkAcc (acc_exact ct) (acc_names ct ++ [col]) (acc_text ct)
                   (acc_strings ct) (acc_numbers ct))
    else if Qlt_bool 10 avg_len && Qlt_bool unique_ratio (1 # 2)
    then Ok (mkAcc (acc_exact ct) (acc_names ct) (acc_text ct ++ [col])
                   (acc_strings ct) (acc_numbers ct))
    else if is_object_dtype (dtype s)
    then Ok (mkAcc (acc_exact ct) (acc_names ct) (acc_text ct)
                   (acc_strings ct ++ [(col, unique_ratio)]) (acc_numbers ct))
    else if is_numeric_dtype (dtype s)
    then Ok (mkAcc (acc_exact ct) (acc_names ct) (acc_text ct)
                   (acc_strings ct) (acc_numbers ct ++ [col]))
    else Ok ct.

(** [sorted(l, key=lambda x: x[1], reverse=True)]: stable, so entries of
    equal ratio keep their relative order. *)
Fixpoint insert_desc (x : string * Q) (l : list (string * Q)) : list (string * Q) :=
  match l with
  | [] => [x]
  | y :: l' =>
      if Qlt_bool (snd x) (snd y) then y :: insert_desc x l' else x :: l
  end.

Definition sorted_desc (l : list (string * Q)) : list (string * Q) :=
  fold_right insert_desc [] l.

Definition empty_acc : col_types_acc := mkAcc [] [] [] [] [].

Definition classify_columns (df : DataFrame) : result ColTypes :=
  ct <- for_each (classify_body df) (columns df) empty_acc ;;
  Ok (mkColTypes (acc_exact ct) (acc_names ct) (acc_text ct)
                 (map fst (sorted_desc (acc_strings ct))) (acc_numbers ct)).

(** ** Match candidates *)

Inductive Tier : Type := EXACT | HIGH | MEDIUM | LOW.

Record Match : Type := mkMatch {
  record_id_l : scalar;
  record_id_r : scalar;
  match_score : Q;
  match_tier : Tier
}.

(** [[(l[i], l[j]) for i in range(len(l)) for j in range(i+1, len(l))]] *)
Definition index_pairs {A : Type} (d : A) (l : list A) : list (A * A) :=
  flat_map (fun i =>
              map (fun j => (nth i l d, nth j l d))
                  (seq (i + 1) (List.length l - (i + 1))))
           (seq 0 (List.length l)).

(** [l[mask]]: the entries of [l] where the boolean mask is true. *)
Fixpoint select {A : Type} (mask : list bool) (l : list A) : list A :=
  match mask, l with
  | b :: mask', x :: l' => if b then x :: select mask' l' else select mask' l'
  | _, _ => []
  end.

(** [df[mask]]: row selection keeps the labels of the selected rows. *)
Definition df_select (mask : list bool) (df : DataFrame) : DataFrame :=
  mkDataFrame (select mask (index df))
              (map (fun s => mkSeries (name s) (dtype s) (select mask (values s)))
                   (series df)).

(** [df.duplicated(subset=[col], keep=False)] on the values of the column:
    a row is marked when its value occurs at least twice; missing values
    count as equal to each other. *)
Definition duplicated (vals : list scalar) : list bool :=
  map (fun v => 2 <=? count_occ scalar_eq_dec vals v) vals.

Section Pipeline.

(** [rapidfuzz.fuzz.ratio], a similarity in [0, 100]. *)
Variable ratio : string -> string -> Q.

(** The order in which [groupby] (with its default [sort=True]) yields the
    group keys: the distinct keys, sorted. *)
Variable key_sort : list scalar -> list scalar.

(** ** Exact matcher *)

(** [dups.groupby(col)]: one sub-frame per distinct non-missing key (the
    default [dropna=True] leaves the missing key out), rows in frame order. *)
Definition groupby (dups : DataFrame) (s : Series) : list (scalar * DataFrame) :=
  map (fun key => (key, df_select (map (scalar_eqb key) (values s)) dups))
      (key_sort (nodup scalar_eq_dec
                       (filter (fun v => negb (isna v)) (values s)))).

Definition exact_group_matches (acc : list Match) (kg : scalar * DataFrame)
  : result (list Match) :=
  rid <- getitem (snd kg) "record_id" ;;
  let rec_ids := values rid in
  Ok (acc ++ map (fun p => mkMatch (fst p) (snd p) 1 EXACT)
                 (index_pairs NaN rec_ids)).

Definition exact_col_matches (df : DataFrame) (acc : list Match) (col : string)
  : result (list Match) :=
  if has_column df col then
    s <- getitem df col ;;
    let dups := df_select (duplicated (values s)) df in
    s' <- getitem dups col ;;
    for_each exact_group_matches (groupby dups s') acc
  else Ok acc.

Definition find_exact_matches (df : DataFrame) (exact_cols : list string)
  : result (list Match) :=
  for_each (exact_col_matches df) exact_cols [].

(** ** Fuzzy scorer *)

(** [df.iloc[idx][col]], read cell by cell.  [df.iloc[idx]] builds the row
    as one Series, which gives the cells a common dtype when every column
    is numeric; the fuzzy tiers, the only callers, run when some column is
    filed as name, text or string, and such a column is not numeric. *)
Definition iloc_cell (df : DataFrame) (idx : nat) (col : string) : result scalar :=
  if idx <? nrows df then
    s <- getitem df col ;;
    match nth_error (values s) idx with
    | Some v => Ok v
    | None => Raise IndexError
    end
  else Raise IndexError.

(** [str(v).lower().strip()] *)
Definition normalize (v : scalar) : string :=
  PyStr.strip (PyStr.lower (py_str v)).

(** Truth value of a string: non-empty. *)
Definition truthy (s : string) : bool :=
  match s with
  | EmptyString => false
  | _ => true
  end.

Definition score_body (df : DataFrame) (idx1 idx2 : nat) (acc : Q * nat)
           (col : string) : result (Q * nat) :=
  if has_column df col then
    v1 <- iloc_cell df idx1 col ;;
    v2 <- iloc_cell df idx2 col ;;
    let val1 := normalize v1 in
    let val2 := normalize v2 in
    if truthy val1 && truthy val2 && negb (String.eqb val1 val2) then
      Ok ((fst acc + ratio val1 val2)%Q, S (snd acc))
    else Ok acc
  else Ok acc.

Definition calculate_fuzzy_score (df : DataFrame) (idx1 idx2 : nat)
           (cols : list string) : result Q :=
  acc <- for_each (score_body df idx1 idx2) cols (0%Q, 0) ;;
  let total_score := fst acc in
  let valid_cols := snd acc in
  Ok (if 0 <? valid_cols then (total_score / inject_Z (Z.of_nat valid_cols))%Q
      else 0%Q).

(** ** Blocking indexer and fuzzy matching *)

Definition block_key_of (v : scalar) : string :=
  let block_key := PyStr.lower (py_str v) in
  if isna v || (String.length block_key <? 3) then "unknown"
  else
    match PyStr.split block_key with
    | w :: _ => PyStr.take 3 w
    | [] => PyStr.take 3 block_key
    end.

(** The [blocks] dictionary: keys in insertion order. *)
Definition Blocks : Type := list (string * list nat).

(** [if key not in blocks: blocks[key] = []] then [blocks[key].append(label)] *)
Fixpoint blocks_append (key : string) (label : nat) (blocks : Blocks) : Blocks :=
  match blocks with
  | [] => [(key, [label])]
  | (k, indices) :: blocks' =>
      if String.eqb key k then (k, indices ++ [label]) :: blocks'
      else (k, indices) :: blocks_append key label blocks'
  end.

(** [df.iterrows()] restricted to the blocking column: (label, value). *)
Definition iterrows (df : DataFrame) (s : Series) : list (nat * scalar) :=
  combine (index df) (values s).

Definition build_blocks (rows : list (nat * scalar)) : Blocks :=
  fold_left (fun blocks row => blocks_append (block_key_of (snd row)) (fst row) blocks)
            rows [].

(** The body of the loops over the pairs of a block.  The score meets the
    threshold as an exact rational, where the code compares binary
    floating-point numbers. *)
Definition pair_body (df : DataFrame) (cols : list string) (threshold : Q)
           (tier : Tier) (acc : list Match) (p : nat * nat) : result (list Match) :=
  let idx1 := fst p in
  let idx2 := snd p in
  score <- calculate_fuzzy_score df idx1 idx2 cols ;;
  if Qle_bool threshold score then
    l <- iloc_cell df idx1 "record_id" ;;
    r <- iloc_cell df idx2 "record_id" ;;
    Ok (acc ++ [mkMatch l r (score / 100)%Q tier])
  else Ok acc.

Definition block_body (df : DataFrame) (cols : list string) (threshold : Q)
           (tier : Tier) (max_block_size : nat) (acc : list Match)
           (block : string * list nat) : result (list Match) :=
  let indices := snd block in
  if (List.length indices <? 2) || (max_block_size <? List.length indices)
  then Ok acc
  else for_each (pair_body df cols threshold tier) (index_pairs 0 indices) acc.

Definition fuzzy_match_strategy (df : DataFrame) (cols : list string)
           (threshold : Q) (tier : Tier) (max_block_size : nat)
  : result (list Match) :=
  match cols with
  | [] => Ok []
  | block_col :: _ =>
      if negb (has_column df block_col) then Ok []
      else
        s <- getitem df block_col ;;
        let blocks := build_blocks (iterrows df s) in
        for_each (block_body df cols threshold tier max_block_size) blocks []
  end.

(** ** Tiered match aggregator *)

Definition id_pair_eqb (p q : scalar * scalar) : bool :=
  scalar_eqb (fst p) (fst q) && scalar_eqb (snd p) (snd q).

Definition id_pair (m : Match) : scalar * scalar :=
  (record_id_l m, record_id_r m).

(** [drop_duplicates(subset=['record_id_l', 'record_id_r'])]: the first row
    of every (left id, right id) combination is kept. *)
Fixpoint drop_duplicates_from (seen : list (scalar * scalar)) (ms : list Match)
  : list Match :=
  match ms with
  | [] => []
  | m :: ms' =>
      if existsb (id_pair_eqb (id_pair m)) seen
      then drop_duplicates_from seen ms'
      else m :: drop_duplicates_from (id_pair m :: seen) ms'
  end.

Definition drop_duplicates (ms : list Match) : list Match :=
  drop_duplicates_from [] ms.

(** [f"{i:06d}"] *)
Fixpoint zeros (n : nat) : string :=
  match n with
  | O => EmptyString
  | S n' => String "0" (zeros n')
  end.

Definition format_06d (i : nat) : string :=
  let digits := NilEmpty.string_of_uint (Nat.to_uint i) in
  zeros (6 - String.length digits) ++ digits.

(** [[f"REC_{i:06d}" for i in range(n)]] *)
Definition synthetic_ids (n : nat) : list scalar :=
  map (fun i => Str ("REC_" ++ format_06d i)) (seq 0 n).

(** [df[col] = vals]: an existing column is replaced in place, a new one is
    appended. *)
Definition setitem (df : DataFrame) (col : string) (d : Dtype) (vals : list scalar)
  : DataFrame :=
  if has_column df col then
    mkDataFrame (index df)
                (map (fun s => if String.eqb col (name s)
                               then mkSeries col d vals else s)
                     (series df))
  else mkDataFrame (index df) (series df ++ [mkSeries col d vals]).

Definition with_record_id (df : DataFrame) : DataFrame :=
  if negb (has_column df "record_id")
  then setitem df "record_id" object_ (synthetic_ids (nrows df))
  else df.

Definition nonempty {A : Type} (l : list A) : bool :=
  match l with
  | [] => false
  | _ => true
  end.

(** The four strategies of [universal_deduplication], in order, their
    results concatenated. *)
Definition all_matches (df : DataFrame) (col_types : ColTypes)
  : result (list Match) :=
  exact_matches <- find_exact_matches df (exact col_types) ;;
  name_matches <-
    (if nonempty (names col_types)
     then fuzzy_match_strategy df (names col_types) 95 HIGH 100
     else Ok []) ;;
  text_matches <-
    (if nonempty (text col_types)
     then fuzzy_match_strategy df (text col_types) 90 MEDIUM 100
     else Ok []) ;;
  fallback_matches <-
    (if nonempty (strings col_types)
     then fuzzy_match_strategy df (firstn 2 (strings col_types)) 85 LOW 100
     else Ok []) ;;
  Ok (exact_matches ++ name_matches ++ text_matches ++ fallback_matches).

(** ** Pipeline driver *)

Record TierCounts : Type := mkTiers {
  n_EXACT : nat;
  n_HIGH : nat;
  n_MEDIUM : nat;
  n_LOW : nat
}.

Definition tier_eqb (a b : Tier) : bool :=
  match a, b with
  | EXACT, EXACT | HIGH, HIGH | MEDIUM, MEDIUM | LOW, LOW => true
  | _, _ => false
  end.

Definition count_tier (t : Tier) (ms : list Match) : nat :=
  List.length (filter (fun m => tier_eqb t (match_tier m)) ms).

(** The dictionary returned to the caller ([total_time] left out);
    [col_types] is [None] for the empty dictionary of the fallback. *)
Record Summary : Type := mkSummary {
  duplicate_pairs : nat;
  input_records : nat;
  detection_rate : Q;
  tiers : TierCounts;
  col_types : option ColTypes
}.

(** The raw content of a file, the parser behind [pd.read_csv] (second
    argument: [nrows]) and the writer behind [to_csv]. *)
Variable file : Type.
Variable parse_csv : file -> option nat -> result DataFrame.
Variable to_csv : list Match -> file.

(** The file system: the content stored under each path. *)
Definition World : Type := string -> option file.

Definition write_file (w : World) (path : string) (f : file) : World :=
  fun p => if String.eqb p path then Some f else w p.

Definition read_csv (w : World) (path : string) (n : option nat) : result DataFrame :=
  match w path with
  | None => Raise FileNotFoundError
  | Some f => parse_csv f n
  end.

(** [min(a, b)] *)
Definition py_min (a b : Q) : Q := if Qlt_bool b a then b else a.

Definition predictions_path : string := "data/raw/dynamic_predictions.csv".

Definition universal_deduplication (df0 : DataFrame) (w : World)
  : result Summary * World :=
  let df := with_record_id df0 in
  match (ct <- classify_columns df ;;
         ms <- all_matches df ct ;;
         Ok (ct, drop_duplicates ms)) with
  | Raise e => (Raise e, w)
  | Ok (ct, matches_df) =>
      let w' := write_file w predictions_path (to_csv matches_df) in
      let pairs := List.length matches_df in
      (rate <- py_div (pairs * 2) (nrows df) ;;
       Ok (mkSummary pairs (nrows df) (py_min 100 (rate * 100))
                     (mkTiers (count_tier EXACT matches_df)
                              (count_tier HIGH matches_df)
                              (count_tier MEDIUM matches_df)
                              (count_tier LOW matches_df))
                     (Some ct)),
       w')
  end.

Definition zero_tiers : TierCounts := mkTiers 0 0 0 0.

Definition run_dynamic_dedup (data_path : string) (w : World)
  : result Summary * World :=
  let attempt :=
    match read_csv w data_path None with
    | Ok df => universal_deduplication df w
    | Raise e => (Raise e, w)
    end in
  match attempt with
  | (Ok r, w') => (Ok r, w')
  | (Raise _, w') =>
      (df <- read_csv w' data_path (Some 1000) ;;
       let df := setitem df "record_id" int64
                         (map (fun i => Int (Z.of_nat i)) (seq 0 (nrows df))) in
       Ok (mkSummary 0 (nrows df) 0 zero_tiers None),
       w')
  end.

End Pipeline.

(** ** Instances used to run the model on concrete frames *)

(** Length of a longest common subsequence. *)
Fixpoint lcs_row (c : ascii) (t : string) (prev : list nat) (diag left : nat)
  : list nat :=
  match t, prev with
  | String d t', up :: prev' =>
      let cur := if Ascii.eqb c d then S diag else Nat.max up left in
      cur :: lcs_row c t' prev' up cur
  | _, _ => []
  end.

Fixpoint lcs_rows (s t : string) (prev : list nat) : list nat :=
  match s with
  | EmptyString => prev
  | String c s' => lcs_rows s' t (lcs_row c t prev 0 0)
  end.

Definition lcs (s t : string) : nat :=
  last (lcs_rows s t (repeat 0 (String.length t))) 0.

(** The normalized Indel similarity, which is what [fuzz.ratio] computes:
    [100 * 2 * lcs / (len s + len t)], and 100 on two empty strings. *)
Definition indel_ratio (s t : string) : Q :=
  match (String.length s + String.length t)%nat with
  | O => 100
  | S n => Z.of_nat (200 * lcs s t) # Pos.of_nat (S n)
  end.

(** An order on group keys, to run the model on concrete frames: missing
    first, then numbers, then text; the keys of a float column are ordered
    by their text.  The properties of the exact matcher are stated for any
    [key_sort] that permutes the keys. *)
Definition scalar_leb (x y : scalar) : bool :=
  match x, y with
  | NaN, _ => true
  | _, NaN => false
  | Bool a, Bool b => implb a b
  | Bool _, _ => true
  | _, Bool _ => false
  | Int a, Int b => (a <=? b)%Z
  | Int _, _ => true
  | _, Int _ => false
  | Float a, Float b => String.leb a b
  | Float _, _ => true
  | _, Float _ => false
  | Str a, Str b => String.leb a b
  end.

Fixpoint insert_key (x : scalar) (l : list scalar) : list scalar :=
  match l with
  | [] => [x]
  | y :: l' => if scalar_leb x y then x :: l else y :: insert_key x l'
  end.

Definition sort_keys (l : list scalar) : list scalar :=
  fold_right insert_key [] l.

(** ** Notions used in the statements *)

(** Boolean check of [well_formed], for concrete frames. *)
Fixpoint distinctb (l : list string) : bool :=
  match l with
  | [] => true
  | x :: l' => negb (existsb (String.eqb x) l') && distinctb l'
  end.

Definition well_formedb (df : DataFrame) : bool :=
  distinctb (columns df) &&
  forallb (fun s => List.length (values s) =? nrows df) (series df).

(** Every name the classifier has filed so far, over the five lists. *)
Definition filed (ct : col_types_acc) : list string :=
  acc_exact ct ++ acc_names ct ++ acc_text ct
            ++ map fst (acc_strings ct) ++ acc_numbers ct.

Definition not_record_id (col : string) : bool :=
  negb (String.eqb col "record_id").

(** The columns the classifier looks at: all but the identifier. *)
Definition eligible (df : DataFrame) : list string :=
  filter not_record_id (columns df).

Definition categories (ct : ColTypes) : list string :=
  exact ct ++ names ct ++ text ct ++ strings ct ++ numbers ct.

(** The frame [pd.read_csv] builds from the lines [notes,city], [,Paris],
    [,Rome], [,Paris] (the empty column is float64), with the synthetic
    identifiers added. *)
Definition df_empty_column : DataFrame :=
  mkDataFrame [0; 1; 2]
    [ mkSeries "notes" float64 [NaN; NaN; NaN];
      mkSeries "city" object_ [Str "Paris"; Str "Rome"; Str "Paris"];
      mkSeries "record_id" object_
               [Str "REC_000000"; Str "REC_000001"; Str "REC_000002"] ].

Definition df_orders : DataFrame :=
  mkDataFrame [0; 1; 2; 3]
    [ mkSeries "city" object_ [Str "Paris"; Str "Paris"; NaN; Str "Rome"];
      mkSeries "amount" int64 [Int 1; Int 2; Int 1; Int 1];
      mkSeries "record_id" object_
               [Str "REC_000000"; Str "REC_000001"; Str "REC_000002";
                Str "REC_000003"] ].

(** The key derivation in the words of the specification: the first
    whitespace-delimited token is what is left of the value once the leading
    whitespace is removed, up to the next whitespace character. *)
Fixpoint take_token (s : string) : string :=
  match s with
  | EmptyString => EmptyString
  | String c s' =>
      if PyStr.is_space c then EmptyString else String c (take_token s')
  end.

Definition first_token (s : string) : option string :=
  match PyStr.lstrip s with
  | EmptyString => None
  | t => Some (take_token t)
  end.

Definition spec_block_key (v : scalar) : string :=
  let low := PyStr.lower (py_str v) in
  if isna v then "unknown"
  else if String.length low <? 3 then "unknown"
  else
    match first_token low with
    | Some token => PyStr.take 3 token
    | None => PyStr.take 3 low
    end.

(** The labels of the rows whose value derives the key [k], in row order. *)
Definition labels_with_key (rows : list (nat * scalar)) (k : string) : list nat :=
  map fst (filter (fun row => String.eqb (spec_block_key (snd row)) k) rows).

(** [blocks.get(k)] *)
Fixpoint lookup_block (blocks : Blocks) (k : string) : option (list nat) :=
  match blocks with
  | [] => None
  | (k', indices) :: blocks' =>
      if String.eqb k k' then Some indices else lookup_block blocks' k
  end.

(** What the loop over the rows has built once the rows [done] are behind
    it. *)
Definition blocks_of (blocks : Blocks) (done : list (nat * scalar)) : Prop :=
  NoDup (map fst blocks) /\
  (forall k, In k (map fst blocks) <->
             exists row, In row done /\ spec_block_key (snd row) = k) /\
  (forall k, In k (map fst blocks) ->
             lookup_block blocks k = Some (labels_with_key done k)) /\
  Permutation (List.concat (map snd blocks)) (map fst done).

(** The cell of row [idx] in column [col], for positions and columns that
    exist. *)
Definition cell_at (df : DataFrame) (idx : nat) (col : string) : scalar :=
  match getitem df col with
  | Ok s => nth idx (values s) NaN
  | Raise _ => NaN
  end.

(** The scorer in the words of the specification: a column contributes when
    neither normalized value is empty and the two differ; the score is the
    arithmetic mean of the similarities of the contributing columns, and 0
    when there is none. *)
Definition contributes (v1 v2 : scalar) : bool :=
  negb (String.eqb (normalize v1) "") && negb (String.eqb (normalize v2) "")
  && negb (String.eqb (normalize v1) (normalize v2)).

Definition contributing_scores (ratio : string -> string -> Q)
           (cells : list (scalar * scalar)) : list Q :=
  map (fun p => ratio (normalize (fst p)) (normalize (snd p)))
      (filter (fun p => contributes (fst p) (snd p)) cells).

Definition mean (scores : list Q) : Q :=
  match scores with
  | [] => 0%Q
  | _ => (fold_left Qplus scores 0 / inject_Z (Z.of_nat (List.length scores)))%Q
  end.

(** The pairs of cells the scorer looks at: one per compared column that
    the frame has. *)
Definition compared_cells (df : DataFrame) (idx1 idx2 : nat) (cols : list string)
  : list (scalar * scalar) :=
  map (fun col => (cell_at df idx1 col, cell_at df idx2 col))
      (filter (has_column df) cols).

Definition df_people : DataFrame :=
  mkDataFrame [0; 1; 2]
    [ mkSeries "full_name" object_
               [Str "Jonathan Smith"; Str "Jonathan Smyth"; Str "Jon Snow"];
      mkSeries "notes" object_ [Str "vip"; NaN; Str "  "];
      mkSeries "record_id" object_
               [Str "REC_000000"; Str "REC_000001"; Str "REC_000002"] ].

(** All pairs of a list, the earlier element first. *)
Fixpoint pairs {A : Type} (l : list A) : list (A * A) :=
  match l with
  | [] => []
  | x :: l' => map (pair x) l' ++ pairs l'
  end.

(** [l'] is [l] with some elements left out. *)
Inductive subseq {A : Type} : list A -> list A -> Prop :=
| subseq_nil : subseq [] []
| subseq_skip (x : A) (l' l : list A) : subseq l' l -> subseq l' (x :: l)
| subseq_keep (x : A) (l' l : list A) : subseq l' l -> subseq (x :: l') (x :: l).

(** The record ids of the records whose value in the column is [key]. *)
Definition group_ids (vals ids : list scalar) (key : scalar) : list scalar :=
  select (map (scalar_eqb key) vals) ids.

Definition exact_pairs (ids : list scalar) : list Match :=
  map (fun p => mkMatch (fst p) (snd p) 1 EXACT) (index_pairs NaN ids).

(** The values by which [groupby] forms the groups of a column: the
    distinct non-missing values of the rows marked as duplicated. *)
Definition shared_values (vals : list scalar) : list scalar :=
  nodup scalar_eq_dec
        (filter (fun v => negb (isna v)) (select (duplicated vals) vals)).




Definition df_apples : DataFrame :=
  mkDataFrame [0; 1; 2; 3; 4]
    [ mkSeries "order_id" object_
               [Str "A1"; Str "A1"; Str "B7"; Str "C3"; Str "D4"];
      mkSeries "remark" object_
               [Str "green apple pie"; Str "green apple pye";
                Str "green apple pie"; Str "blue sky"; Str "blue sky"];
      mkSeries "record_id" object_
               [Str "REC_000000"; Str "REC_000001"; Str "REC_000002";
                Str "REC_000003"; Str "REC_000004"] ].

(** A file system without any file, for a parser that rejects and a writer
    that keeps nothing. *)
Definition no_files : World unit := fun _ => None.

Definition reject_all : unit -> option nat -> result DataFrame :=
  fun _ _ => Raise ParserError.

Definition write_nothing : list Match -> unit := fun _ => tt.

(** The result of the fallback branch of [run_dynamic_dedup]. *)
Definition zero_match_result (records : nat) : Summary :=
  mkSummary 0 records 0 zero_tiers None.

(** A parser for running the driver on concrete inputs: the file is the
    table it holds, and [nrows] keeps its first rows. *)
Definition df_head (n : nat) (df : DataFrame) : DataFrame :=
  mkDataFrame (firstn n (index df))
              (map (fun s => mkSeries (name s) (dtype s) (firstn n (values s)))
                   (series df)).

Definition parse_frame (f : DataFrame) (n : option nat) : result DataFrame :=
  Ok (match n with
      | Some k => df_head k f
      | None => f
      end).

Definition keep_nothing : list Match -> DataFrame :=
  fun _ => mkDataFrame [] [].

Definition one_file (path : string) (f : DataFrame) : World DataFrame :=
  fun p => if String.eqb p path then Some f else None.

(** [df_empty_column] as the file holds it, before ids are assigned. *)
Definition csv_empty_column : DataFrame :=
  mkDataFrame [0; 1; 2]
    [ mkSeries "notes" float64 [NaN; NaN; NaN];
      mkSeries "city" object_ [Str "Paris"; Str "Rome"; Str "Paris"] ].

(** A frame whose ["status"] column was made categorical
    ([astype('category')]) before the pipeline is called on it. *)
Definition df_status : DataFrame :=
  mkDataFrame [0; 1; 2; 3]
    [ mkSeries "status" category
               [Str "open"; Str "open"; Str "closed"; Str "open"];
      mkSeries "record_id" object_
               [Str "REC_000000"; Str "REC_000001"; Str "REC_000002";
                Str "REC_000003"] ].

(** A similarity that only looks at the lengths, for running the scorer
    with a function that is symmetric by construction. *)
Definition same_length_ratio (a b : string) : Q :=
  if String.length a =? String.length b then 100 else 0.

(** The uniqueness ratio of a column: distinct over all non-missing values
    (lower-cased text), as [classify_columns] computes it once it knows the
    sample is not empty. *)
Definition uniqueness (s : Series) : Q :=
  Z.of_nat (nunique (sample_of s)) # Pos.of_nat (List.length (sample_of s)).

Definition uniqueness_of (df : DataFrame) (col : string) : Q :=
  match getitem df col with
  | Ok s => uniqueness s
  | Raise _ => 0
  end.

(** A frame with three generic text columns of different uniqueness. *)
Definition df_shop : DataFrame :=
  mkDataFrame [0; 1; 2; 3; 4]
    [ mkSeries "colour" object_
               [Str "red"; Str "red"; Str "red"; Str "red"; Str "blue"];
      mkSeries "town" object_
               [Str "Oslo"; Str "Rome"; Str "Bern"; Str "Oslo"; Str "Lima"];
      mkSeries "size" object_
               [Str "S"; Str "M"; Str "L"; Str "S"; Str "S"];
      mkSeries "price" float64
               [Float "9.5"; Float "9.5"; Float "9.5"; Float "9.5"; Float "9.5"];
      mkSeries "record_id" object_
               [Str "REC_000000"; Str "REC_000001"; Str "REC_000002";
                Str "REC_000003"; Str "REC_000004"] ].

(** The score of a pair of rows, the acceptance test of a tier and the match
    it records, as [fuzzy_match_strategy] computes them on rows of the
    frame. *)
Definition pair_score (ratio : string -> string -> Q) (df : DataFrame)
           (cols : list string) (p : nat * nat) : Q :=
  mean (contributing_scores ratio (compared_cells df (fst p) (snd p) cols)).

Definition accepted (ratio : string -> string -> Q) (df : DataFrame)
           (cols : list string) (threshold : Q) (p : nat * nat) : bool :=
  Qle_bool threshold (pair_score ratio df cols p).

Definition match_of_pair (ratio : string -> string -> Q) (df : DataFrame)
           (ids : list scalar) (cols : list string) (tier : Tier)
           (p : nat * nat) : Match :=
  mkMatch (nth (fst p) ids NaN) (nth (snd p) ids NaN)
          (pair_score ratio df cols p / 100)%Q tier.

(** What one block adds to the matches of a tier. *)
Definition block_matches (ratio : string -> string -> Q) (df : DataFrame)
           (ids : list scalar) (cols : list string) (threshold : Q)
           (tier : Tier) (max_block_size : nat) (block : string * list nat)
  : list Match :=
  if (List.length (snd block) <? 2) || (max_block_size <? List.length (snd block))
  then []
  else map (match_of_pair ratio df ids cols tier)
           (filter (accepted ratio df cols threshold) (pairs (snd block))).

(** The lowest score a match of a tier can carry. *)
Definition tier_floor (t : Tier) : Q :=
  match t with
  | EXACT => 1
  | HIGH => 95 / 100
  | MEDIUM => 90 / 100
  | LOW => 85 / 100
  end.

(** A frame in which an identifier column has all its values distinct. *)
Definition df_tickets : DataFrame :=
  mkDataFrame [0; 1; 2]
    [ mkSeries "ticket_code" object_ [Str "T-1"; Str "T-2"; NaN];
      mkSeries "record_id" object_
               [Str "REC_000000"; Str "REC_000001"; Str "REC_000002"] ].

(** Normalization in the words of the specification: lower-case, then trim.
    The upper-case letters and the blank characters are listed by code
    point, and trimming is written on the text itself: the leading blanks
    go, and a character stays when it is not blank or when something that
    stays follows it. *)
Definition upper_case_codes : list nat :=
  seq 65 26 ++ seq 192 23 ++ seq 216 7.

Definition blank_codes : list nat :=
  [9; 10; 11; 12; 13; 28; 29; 30; 31; 32; 133; 160].

Definition is_upper_case (c : ascii) : bool :=
  existsb (Nat.eqb (nat_of_ascii c)) upper_case_codes.

Definition is_blank (c : ascii) : bool :=
  existsb (Nat.eqb (nat_of_ascii c)) blank_codes.

Fixpoint lower_cased (s : string) : string :=
  match s with
  | EmptyString => EmptyString
  | String c s' =>
      String (if is_upper_case c then ascii_of_nat (nat_of_ascii c + 32) else c)
             (lower_cased s')
  end.

Fixpoint trim_left (s : string) : string :=
  match s with
  | EmptyString => EmptyString
  | String c s' => if is_blank c then trim_left s' else s
  end.

Fixpoint trim_right (s : string) : string :=
  match s with
  | EmptyString => EmptyString
  | String c s' =>
      match trim_right s' with
      | EmptyString => if is_blank c then EmptyString else String c EmptyString
      | kept => String c kept
      end
  end.

Definition trimmed (s : string) : string := trim_right (trim_left s).

Definition normalized_text (v : scalar) : string :=
  trimmed (lower_cased (py_str v)).

(** A compared column is skipped when one of the two normalized values is
    empty or when the two are identical; the others contribute their
    similarity. *)
Definition skipped (v1 v2 : scalar) : bool :=
  String.eqb (normalized_text v1) ""
  || String.eqb (normalized_text v2) ""
  || String.eqb (normalized_text v1) (normalized_text v2).

Definition similarities (ratio : string -> string -> Q)
           (cells : list (scalar * scalar)) : list Q :=
  map (fun p => ratio (normalized_text (fst p)) (normalized_text (snd p)))
      (filter (fun p => negb (skipped (fst p) (snd p))) cells).

(** Rows that differ in letter case and in surrounding blanks only, next to
    rows that differ in spelling. *)
Definition df_firms : DataFrame :=
  mkDataFrame [0; 1; 2]
    [ mkSeries "company" object_
               [Str "ACME Ltd"; Str "  acme ltd "; Str "Acme Limited"];
      mkSeries "town" object_ [Str "Oslo"; Str "Olso"; Str "OSLO"];
      mkSeries "notes" object_ [Str "   "; Str "x"; NaN];
      mkSeries "record_id" object_
               [Str "REC_000000"; Str "REC_000001"; Str "REC_000002"] ].

(** The exact matcher read with the normalization of the scorer: the
    record ids of the records whose normalized value in the column is
    [key], and whether a match joins two records of such a group. *)
Definition normalized_group_ids (vals ids : list scalar) (key : string)
  : list scalar :=
  select (map (fun v => String.eqb (normalized_text v) key) vals) ids.

Definition within (group : list scalar) (m : Match) : bool :=
  existsb (scalar_eqb (record_id_l m)) group
  && existsb (scalar_eqb (record_id_r m)) group.

(** Three order codes that differ in letter case and in a trailing blank
    only. *)
Definition df_codes : DataFrame :=
  mkDataFrame [0; 1; 2]
    [ mkSeries "order_id" object_ [Str "A1"; Str "a1"; Str "A1 "];
      mkSeries "record_id" object_
               [Str "REC_000000"; Str "REC_000001"; Str "REC_000002"] ].

(** A writer that keeps the match table as it is, to look at what the
    pipeline persists, and a file system without any file for it. *)
Definition keep_matches : list Match -> list Match := fun ms => ms.

Definition no_match_files : World (list Match) := fun _ => None.

(** [df_apples] as the file holds it, before ids are assigned. *)
Definition csv_apples : DataFrame :=
  mkDataFrame [0; 1; 2; 3; 4]
    [ mkSeries "order_id" object_
               [Str "A1"; Str "A1"; Str "B7"; Str "C3"; Str "D4"];
      mkSeries "remark" object_
               [Str "green apple pie"; Str "green apple pye";
                Str "green apple pie"; Str "blue sky"; Str "blue sky"] ].


(** A categorical column next to a text column. *)
Definition df_status_city : DataFrame :=
  mkDataFrame [0; 1; 2; 3]
    [ mkSeries "status" category
               [Str "open"; Str "open"; Str "closed"; Str "open"];
      mkSeries "city" object_
               [Str "Paris"; Str "Rome"; Str "Paris"; Str "Oslo"];
      mkSeries "record_id" object_
               [Str "REC_000000"; Str "REC_000001"; Str "REC_000002";
                Str "REC_000003"] ].

(** A match whose score lies in the band of its tier: no lower than the
    tier's floor and no higher than 1. *)
Definition within_tier_band (m : Match) : Prop :=
  (tier_floor (match_tier m) <= match_score m)%Q /\ (match_score m <= 1)%Q.

(** The entries of a row of the longest-common-subsequence table: the
    entry of column [j] is at most [j + 1], counted from [k]. *)
Fixpoint bounded_from (k : nat) (row : list nat) : Prop :=
  match row with
  | [] => True
  | x :: row' => x <= S k /\ bounded_from (S k) row'
  end.

(** ** Accuracy evaluation (src/src/evaluation.py)

    The computation of [evaluate_deduplication_accuracy] between reading
    the two tables and writing the metrics.  Record identifiers are text,
    as the data generator and the pipeline write them.  A Python [set] of
    pairs is a list without repetition ([ListSet]); a raised exception is
    [None]. *)

Module Evaluation.

(** The [original_id] cell of a ground-truth row: an identifier, or the
    missing value as [read_csv] gives it (the float [nan]) or as
    [read_parquet] gives it ([None]). *)
Inductive id_cell : Type :=
| Id (s : string)
| Nan
| PyNone.

Record TruthRow : Type := mkTruthRow {
  record_id : string;
  is_duplicate : bool;
  original_id : id_cell
}.

Record PredictionRow : Type := mkPredictionRow {
  record_id_l : string;
  record_id_r : string
}.

Definition pair_eq_dec (p q : string * string) : {p = q} + {p <> q}.
Proof. decide equality; apply string_dec. Defined.

(** [tuple(sorted([a, b]))]: the sort is stable, so [b] comes first only
    when [b < a]. *)
Definition sorted_pair (a b : string) : string * string :=
  if String.ltb b a then (b, a) else (a, b).

(** [for x in xs: acc = body(acc, x)], where the body may raise. *)
Fixpoint for_rows {A S : Type} (body : S -> A -> option S) (rows : list A)
         (acc : S) : option S :=
  match rows with
  | [] => Some acc
  | row :: rows' =>
      match body acc row with
      | Some acc' => for_rows body rows' acc'
      | None => None
      end
  end.

(** The body of the loop over the ground-truth rows.  [if orig_id:] lets
    a non-empty text and the float [nan] through and stops the empty text
    and [None]; on [nan], [sorted] raises [TypeError] when it compares it
    with the text id. *)
Definition truth_body (true_duplicates : ListSet.set (string * string))
           (row : TruthRow) : option (ListSet.set (string * string)) :=
  let dup_id := record_id row in
  match original_id row with
  | Id orig_id =>
      if truthy orig_id
      then Some (ListSet.set_add pair_eq_dec (sorted_pair dup_id orig_id)
                                 true_duplicates)
      else Some true_duplicates
  | Nan => None
  | PyNone => Some true_duplicates
  end.

Definition prediction_body (predicted_duplicates : ListSet.set (string * string))
           (row : PredictionRow) : ListSet.set (string * string) :=
  ListSet.set_add pair_eq_dec
                  (sorted_pair (record_id_l row) (record_id_r row))
                  predicted_duplicates.

Record Metrics : Type := mkMetrics {
  true_duplicates : nat;
  predicted_duplicates : nat;
  true_positives : nat;
  false_positives : nat;
  false_negatives : nat;
  precision : Q;
  recall : Q;
  f1_score : Q
}.

(** [a / b if b > 0 else 0] on two counts. *)
Definition share (a b : nat) : Q :=
  if 0 <? b then (inject_Z (Z.of_nat a) / inject_Z (Z.of_nat b))%Q else 0%Q.

Definition evaluate_deduplication_accuracy (df_pred : list PredictionRow)
           (df_truth : list TruthRow) : option Metrics :=
  match for_rows truth_body (filter is_duplicate df_truth) [] with
  | None => None
  | Some true_dups =>
      let predicted := fold_left prediction_body df_pred [] in
      let tp := List.length (ListSet.set_inter pair_eq_dec true_dups predicted) in
      let fp := List.length (ListSet.set_diff pair_eq_dec predicted true_dups) in
      let fn := List.length (ListSet.set_diff pair_eq_dec true_dups predicted) in
      let p := share tp (tp + fp) in
      let r := share tp (tp + fn) in
      let f1 := if Qlt_bool 0 (p + r) then (2 * (p * r) / (p + r))%Q else 0%Q in
      Some (mkMetrics (List.length true_dups) (List.length predicted)
                      tp fp fn p r f1)
  end.

(** The same prediction with its two identifiers exchanged. *)
Definition swap (row : PredictionRow) : PredictionRow :=
  mkPredictionRow (record_id_r row) (record_id_l row).

End Evaluation.

(** A ground truth with two duplicates, and predictions that name one of
    them in both orders and add a pair that is no duplicate. *)
Definition truth_customers : list Evaluation.TruthRow :=
  [ Evaluation.mkTruthRow "REC_00000001" false Evaluation.Nan;
    Evaluation.mkTruthRow "REC_00000002" false Evaluation.Nan;
    Evaluation.mkTruthRow "DUP_00000000" true (Evaluation.Id "REC_00000001");
    Evaluation.mkTruthRow "REC_00000003" false Evaluation.Nan;
    Evaluation.mkTruthRow "DUP_00000001" true (Evaluation.Id "REC_00000003") ].

Definition predictions_customers : list Evaluation.PredictionRow :=
  [ Evaluation.mkPredictionRow "REC_00000001" "DUP_00000000";
    Evaluation.mkPredictionRow "DUP_00000000" "REC_00000001";
    Evaluation.mkPredictionRow "REC_00000002" "REC_00000003" ].

(** * Properties *)

(** ** Frames and column lookup *)

Lemma has_column_In (df : DataFrame) (col : string) :
  has_column df col = true <-> In col (columns df).
Proof.
  unfold has_column. rewrite existsb_exists. split.
  - intros [x [Hin Heq]]. apply String.eqb_eq in Heq. now subst.
  - intros Hin. exists col. split; [assumption | apply String.eqb_refl].
Qed.

Lemma find_series_Some (ss : list Series) (col : string) (s : Series) :
  find_series ss col = Some s -> In s ss /\ name s = col.
Proof.
  induction ss as [| s0 ss IH]; simpl; [discriminate |].
  destruct (String.eqb col (name s0)) eqn:E.
  - intros [= <-]. apply String.eqb_eq in E. auto.
  - intros H. destruct (IH H). auto.
Qed.

Lemma find_series_In (ss : list Series) (s : Series) :
  NoDup (map name ss) -> In s ss -> find_series ss (name s) = Some s.
Proof.
  induction ss as [| s0 ss IH]; simpl; [contradiction |].
  intros Hnd [-> | Hin].
  - now rewrite String.eqb_refl.
  - inversion Hnd as [| ? ? Hnotin Hnd']; subst.
    destruct (String.eqb (name s) (name s0)) eqn:E.
    + apply String.eqb_eq in E. exfalso. apply Hnotin. rewrite <- E.
      now apply in_map.
    + now apply IH.
Qed.

Lemma find_series_columns (ss : list Series) (col : string) :
  In col (map name ss) -> exists s, find_series ss col = Some s.
Proof.
  induction ss as [| s0 ss IH]; simpl; [contradiction |].
  intros H. destruct (String.eqb col (name s0)) eqn:E; [eauto |].
  destruct H as [H | H]; [| auto].
  subst. now rewrite String.eqb_refl in E.
Qed.

Lemma getitem_Ok (df : DataFrame) (col : string) (s : Series) :
  getitem df col = Ok s -> In s (series df) /\ name s = col.
Proof.
  unfold getitem. destruct (find_series (series df) col) eqn:E; [| discriminate].
  intros [= <-]. now apply find_series_Some.
Qed.

Lemma getitem_columns (df : DataFrame) (col : string) :
  In col (columns df) -> exists s, getitem df col = Ok s.
Proof.
  intros H. unfold getitem.
  destruct (find_series_columns _ _ H) as [s ->]. eauto.
Qed.

Lemma getitem_In (df : DataFrame) (s : Series) :
  NoDup (columns df) -> In s (series df) -> getitem df (name s) = Ok s.
Proof.
  intros Hnd Hin. unfold getitem. now rewrite find_series_In.
Qed.

Lemma distinctb_NoDup (l : list string) : distinctb l = true -> NoDup l.
Proof.
  induction l as [| x l IH]; simpl; [constructor |].
  intros H. apply andb_prop in H as [Hx Hl]. constructor; [| auto].
  intros Hin. apply negb_true_iff in Hx.
  assert (existsb (String.eqb x) l = true); [| congruence].
  apply existsb_exists. exists x. split; [assumption | apply String.eqb_refl].
Qed.

Lemma well_formedb_spec (df : DataFrame) :
  well_formedb df = true -> well_formed df.
Proof.
  unfold well_formedb, well_formed. intros H.
  apply andb_prop in H as [H1 H2]. split.
  - now apply distinctb_NoDup.
  - apply Forall_forall. intros s Hs.
    rewrite forallb_forall in H2. now apply Nat.eqb_eq, H2.
Qed.

(** ** Column classifier *)

Section Classifier.

Variable df : DataFrame.

(** Moves the head of the left list to its place in the right one. *)
Ltac perm_move :=
  repeat first
    [ reflexivity
    | etransitivity; [apply Permutation_middle |]; apply Permutation_app_head ].

Ltac filed_step :=
  unfold filed; simpl; rewrite ?map_app; simpl; rewrite <- ?app_assoc; simpl;
  symmetry; perm_move.

(** An empty sample makes the uniqueness ratio divide by zero. *)
Lemma classify_body_empty_sample (ct : col_types_acc) (col : string) (s : Series) :
  col <> "record_id" ->
  getitem df col = Ok s ->
  sample_of s = [] ->
  classify_body df ct col = Raise ZeroDivisionError.
Proof.
  intros Hne Hget Hs. unfold classify_body.
  destruct (String.eqb col "record_id") eqn:E.
  - apply String.eqb_eq in E. contradiction.
  - rewrite Hget. cbn [bind]. rewrite Hs. reflexivity.
Qed.

(** The only exception the body can raise on a column of the frame. *)
Lemma classify_body_raises (ct : col_types_acc) (col : string) (e : exn) :
  In col (columns df) ->
  classify_body df ct col = Raise e -> e = ZeroDivisionError.
Proof.
  intros Hin. unfold classify_body.
  destruct (String.eqb col "record_id"); [discriminate |].
  destruct (getitem_columns _ _ Hin) as [s ->]. cbn [bind].
  unfold py_div. destruct (List.length (sample_of s)); cbn [bind].
  - now intros [= <-].
  - repeat match goal with
           | |- context [if ?b then _ else _] => destruct b
           end; discriminate.
Qed.

Lemma for_each_classify_raises (cols : list string) (ct : col_types_acc) (e : exn) :
  incl cols (columns df) ->
  for_each (classify_body df) cols ct = Raise e -> e = ZeroDivisionError.
Proof.
  revert ct. induction cols as [| c cols IH]; intros ct Hincl; simpl.
  - discriminate.
  - destruct (classify_body df ct c) eqn:E; simpl.
    + apply IH. intros x Hx. apply Hincl. now right.
    + intros [= <-]. eapply classify_body_raises; [| exact E].
      apply Hincl. now left.
Qed.

Lemma for_each_classify_all_missing (cols : list string) (ct : col_types_acc)
      (s : Series) :
  incl cols (columns df) ->
  In (name s) cols ->
  name s <> "record_id" ->
  getitem df (name s) = Ok s ->
  sample_of s = [] ->
  for_each (classify_body df) cols ct = Raise ZeroDivisionError.
Proof.
  revert ct. induction cols as [| c cols IH]; intros ct Hincl Hin Hne Hget Hs.
  - contradiction.
  - simpl. destruct (classify_body df ct c) eqn:E; simpl.
    + destruct Hin as [-> | Hin].
      * rewrite (classify_body_empty_sample ct _ s Hne Hget Hs) in E.
        discriminate.
      * apply IH; auto. intros x Hx. apply Hincl. now right.
    + f_equal. eapply classify_body_raises; [| exact E].
      apply Hincl. now left.
Qed.

(** One step of the loop files an eligible column in exactly one list. *)
Lemma classify_body_files (ct : col_types_acc) (col : string) (s : Series) :
  col <> "record_id" ->
  getitem df col = Ok s ->
  sample_of s <> [] ->
  is_object_dtype (dtype s) || is_numeric_dtype (dtype s) = true ->
  exists ct', classify_body df ct col = Ok ct' /\
              Permutation (filed ct') (col :: filed ct).
Proof.
  intros Hne Hget Hs Hdt. unfold classify_body.
  destruct (String.eqb col "record_id") eqn:E.
  { apply String.eqb_eq in E. contradiction. }
  rewrite Hget. cbn [bind]. unfold py_div.
  destruct (List.length (sample_of s)) eqn:Hlen.
  { destruct (sample_of s); [contradiction | discriminate]. }
  cbn [bind].
  set (r := (Z.of_nat (nunique (sample_of s)) # Pos.of_nat (S n))).
  destruct (Qlt_bool (8 # 10) r || PyStr.any_in exact_keywords (PyStr.lower col)
            || is_numeric_dtype (dtype s)) eqn:C1.
  { eexists. split; [reflexivity | filed_step]. }
  destruct (Qlt_bool (1 # 10) r && Qlt_bool r (8 # 10)
            && PyStr.any_in name_keywords (PyStr.lower col)) eqn:C2.
  { eexists. split; [reflexivity | filed_step]. }
  destruct (Qlt_bool 10 (mean_len (sample_of s)) && Qlt_bool r (1 # 2)) eqn:C3.
  { eexists. split; [reflexivity | filed_step]. }
  apply orb_false_iff in C1 as [_ Hnum]. rewrite Hnum in Hdt.
  rewrite orb_false_r in Hdt. rewrite Hdt.
  eexists. split; [reflexivity | filed_step].
Qed.

(** The numeric-fallback branch is never taken, whatever the column. *)
Lemma classify_body_numbers (ct ct' : col_types_acc) (col : string) :
  classify_body df ct col = Ok ct' ->
  acc_numbers ct = [] -> acc_numbers ct' = [].
Proof.
  unfold classify_body.
  destruct (String.eqb col "record_id"); [now intros [= <-] |].
  destruct (getitem df col) as [s |]; [cbn [bind] | discriminate].
  destruct (py_div _ _) as [r |]; [cbn [bind] | discriminate].
  destruct (is_numeric_dtype (dtype s)) eqn:Hnum.
  - rewrite orb_true_r. now intros [= <-].
  - rewrite orb_false_r.
    repeat match goal with
           | |- context [if ?b then _ else _] => destruct b
           end; now intros [= <-].
Qed.

Lemma for_each_classify_numbers (cols : list string) (ct ct' : col_types_acc) :
  for_each (classify_body df) cols ct = Ok ct' ->
  acc_numbers ct = [] -> acc_numbers ct' = [].
Proof.
  revert ct. induction cols as [| c cols IH]; intros ct; simpl.
  - now intros [= <-].
  - destruct (classify_body df ct c) eqn:E; simpl; [| discriminate].
    intros H Hn. eapply IH; [exact H |].
    eapply classify_body_numbers; eauto.
Qed.

End Classifier.

Lemma sample_of_all_missing (s : Series) :
  Forall (fun v => isna v = true) (values s) -> sample_of s = [].
Proof.
  unfold sample_of. induction (values s) as [| v vs IH]; simpl; [reflexivity |].
  intros H. inversion H as [| ? ? Hv Hvs]; subst. rewrite Hv. simpl. auto.
Qed.

Lemma sample_of_some_value (s : Series) (v : scalar) :
  In v (values s) -> isna v = false -> sample_of s <> [].
Proof.
  unfold sample_of. intros Hin Hv Hnil.
  apply map_eq_nil in Hnil.
  assert (Hf : In v (filter (fun v => negb (isna v)) (values s))).
  { apply filter_In. split; [assumption | now rewrite Hv]. }
  rewrite Hnil in Hf. contradiction.
Qed.

Lemma insert_desc_perm (x : string * Q) (l : list (string * Q)) :
  Permutation (insert_desc x l) (x :: l).
Proof.
  induction l as [| y l IH]; simpl; [reflexivity |].
  destruct (Qlt_bool (snd x) (snd y)); [| reflexivity].
  rewrite IH. apply perm_swap.
Qed.

Lemma sorted_desc_perm (l : list (string * Q)) : Permutation (sorted_desc l) l.
Proof.
  induction l as [| x l IH]; simpl; [reflexivity |].
  rewrite insert_desc_perm. now constructor.
Qed.

(** C2. A column without a single non-missing value is not skipped: the
    uniqueness ratio divides by the empty sample's length, and
    [classify_columns] raises [ZeroDivisionError]. *)
Theorem classify_columns_all_missing_raises (df : DataFrame) (s : Series) :
  NoDup (columns df) ->
  In s (series df) ->
  name s <> "record_id" ->
  Forall (fun v => isna v = true) (values s) ->
  classify_columns df = Raise ZeroDivisionError.
Proof.
  intros Hnd Hin Hne Hall. unfold classify_columns.
  rewrite (for_each_classify_all_missing df (columns df) empty_acc s).
  - reflexivity.
  - apply incl_refl.
  - unfold columns. now apply in_map.
  - assumption.
  - now apply getitem_In.
  - now apply sample_of_all_missing.
Qed.

Lemma classify_columns_all_missing_raises_witness :
  classify_columns df_empty_column = Raise ZeroDivisionError.
Proof.
  apply (classify_columns_all_missing_raises df_empty_column
           (mkSeries "notes" float64 [NaN; NaN; NaN])).
  - apply distinctb_NoDup. reflexivity.
  - simpl. auto.
  - simpl. discriminate.
  - simpl. repeat constructor.
Defined.

(** C3. The classifier does not assign every eligible column a category:
    on a frame in which some column other than the identifier holds no
    value at all, the division by the empty sample's length raises
    [ZeroDivisionError] before any list is returned, so a column that does
    hold values ends up in none of the five categories. *)
Theorem classify_columns_unfiled_beside_empty_column (df : DataFrame)
        (s e : Series) :
  NoDup (columns df) ->
  In s (series df) -> name s <> "record_id" ->
  Forall (fun v => isna v = true) (values s) ->
  In e (series df) -> name e <> "record_id" ->
  (exists v, In v (values e) /\ isna v = false) ->
  In (name e) (eligible df) /\
  classify_columns df = Raise ZeroDivisionError /\
  ~ (exists ct, classify_columns df = Ok ct /\ In (name e) (categories ct)).
Proof.
  intros Hnd Hs Hsne Hall He Hene _.
  assert (Hraise : classify_columns df = Raise ZeroDivisionError).
  { unfold classify_columns.
    rewrite (for_each_classify_all_missing df (columns df) empty_acc s).
    - reflexivity.
    - apply incl_refl.
    - unfold columns. now apply in_map.
    - assumption.
    - now apply getitem_In.
    - now apply sample_of_all_missing. }
  split; [| split; [exact Hraise |]].
  - unfold eligible. apply filter_In. split.
    + unfold columns. now apply in_map.
    + unfold not_record_id. apply negb_true_iff. now apply String.eqb_neq.
  - intros [ct [Hct _]]. rewrite Hraise in Hct. discriminate.
Qed.

Lemma classify_columns_unfiled_beside_empty_column_witness :
  In "city" (eligible df_empty_column) /\
  classify_columns df_empty_column = Raise ZeroDivisionError /\
  ~ (exists ct, classify_columns df_empty_column = Ok ct /\
                In "city" (categories ct)).
Proof.
  apply (classify_columns_unfiled_beside_empty_column df_empty_column
           (mkSeries "notes" float64 [NaN; NaN; NaN])
           (mkSeries "city" object_ [Str "Paris"; Str "Rome"; Str "Paris"])).
  - apply distinctb_NoDup. reflexivity.
  - simpl. auto.
  - simpl. discriminate.
  - simpl. repeat constructor.
  - simpl. auto.
  - simpl. discriminate.
  - exists (Str "Paris"). split; [simpl; auto | reflexivity].
Defined.

(** The chain of rules ends without an [else]: a column that meets none of
    the first three rules and whose dtype is neither [object] nor numeric
    is put in no list, here the categorical column ["status"]. *)
Lemma classify_columns_category_dtype_unfiled :
  classify_columns df_status = Ok (mkColTypes [] [] [] [] []) /\
  sample_of (mkSeries "status" category
               [Str "open"; Str "open"; Str "closed"; Str "open"])
  = ["open"; "open"; "closed"; "open"].
Proof. split; reflexivity. Qed.

(** C10. The ['numbers'] list that [classify_columns] returns is empty:
    a column of numeric dtype has already met the exact-key test. *)
Theorem classify_columns_numbers_empty (df : DataFrame) (ct : ColTypes) :
  classify_columns df = Ok ct -> numbers ct = [].
Proof.
  unfold classify_columns.
  destruct (for_each (classify_body df) (columns df) empty_acc) as [acc |] eqn:E;
    cbn [bind]; [| discriminate].
  intros [= <-]. simpl.
  eapply for_each_classify_numbers; [exact E | reflexivity].
Qed.

Lemma classify_columns_numbers_empty_witness :
  classify_columns df_orders
  = Ok (mkColTypes ["amount"] [] [] ["city"] []) /\
  numbers (mkColTypes ["amount"] [] [] ["city"] []) = [].
Proof.
  split; [reflexivity |].
  apply (classify_columns_numbers_empty df_orders). reflexivity.
Defined.

(** ** Blocking indexer *)

Lemma append_assoc (a b c : string) :
  ((a ++ b) ++ c)%string = (a ++ (b ++ c))%string.
Proof. induction a; simpl; congruence. Qed.

Lemma rev_string_acc (s acc : string) :
  PyStr.rev_string s acc = (PyStr.rev_string s EmptyString ++ acc)%string.
Proof.
  revert acc. induction s as [| c s IH]; intros acc; simpl; [reflexivity |].
  rewrite IH, (IH (String c EmptyString)).
  rewrite append_assoc. reflexivity.
Qed.

Lemma append_empty_r (s : string) : (s ++ EmptyString)%string = s.
Proof. induction s; simpl; congruence. Qed.

Lemma split_aux_head (s cur : string) :
  hd_error (PyStr.split_aux s cur) =
  match cur with
  | EmptyString => first_token s
  | _ => Some (PyStr.rev_string cur EmptyString ++ take_token s)%string
  end.
Proof.
  revert cur. induction s as [| c s IH]; intros cur.
  - simpl. destruct cur; simpl; [reflexivity |].
    now rewrite append_empty_r.
  - simpl. destruct (PyStr.is_space c) eqn:Hc.
    + destruct cur as [| c0 cur]; simpl.
      * rewrite IH. unfold first_token. cbn [PyStr.lstrip]. now rewrite Hc.
      * now rewrite append_empty_r.
    + rewrite IH. destruct cur as [| c0 cur].
      * unfold first_token. cbn [PyStr.lstrip]. rewrite Hc.
        cbn [take_token]. rewrite Hc. reflexivity.
      * simpl. rewrite (rev_string_acc cur (String c0 (String c EmptyString))).
        rewrite (rev_string_acc cur (String c0 EmptyString)).
        rewrite ?Hc, !append_assoc. reflexivity.
Qed.

(** The first element of [s.split()] is the first whitespace-delimited
    token of [s]; the list is empty exactly when there is none. *)
Lemma split_first_token (s : string) : hd_error (PyStr.split s) = first_token s.
Proof. unfold PyStr.split. now rewrite split_aux_head. Qed.

(** The key the code derives is the key the specification describes. *)
Lemma block_key_of_spec (v : scalar) : block_key_of v = spec_block_key v.
Proof.
  unfold block_key_of, spec_block_key.
  destruct (isna v); simpl; [reflexivity |].
  destruct (String.length (PyStr.lower (py_str v)) <? 3); [reflexivity |].
  rewrite <- split_first_token.
  destruct (PyStr.split (PyStr.lower (py_str v))); reflexivity.
Qed.

Lemma lookup_block_append (key k : string) (label : nat) (blocks : Blocks) :
  lookup_block (blocks_append key label blocks) k =
  if String.eqb k key
  then Some (match lookup_block blocks k with
             | Some indices => indices
             | None => []
             end ++ [label])
  else lookup_block blocks k.
Proof.
  induction blocks as [| [k' indices] blocks IH]; simpl.
  - destruct (String.eqb k key); reflexivity.
  - destruct (String.eqb key k') eqn:E; simpl.
    + apply String.eqb_eq in E. subst k'.
      destruct (String.eqb k key); reflexivity.
    + destruct (String.eqb k k') eqn:E'.
      * apply String.eqb_eq in E'. subst k'. rewrite String.eqb_sym, E.
        reflexivity.
      * apply IH.
Qed.

Lemma blocks_append_keys (key : string) (label : nat) (blocks : Blocks) :
  NoDup (map fst blocks) ->
  NoDup (map fst (blocks_append key label blocks)) /\
  (forall k, In k (map fst (blocks_append key label blocks)) <->
             k = key \/ In k (map fst blocks)).
Proof.
  induction blocks as [| [k' indices] blocks IH]; simpl; intros Hnd.
  - split; [repeat constructor; auto | intuition auto].
  - inversion Hnd as [| ? ? Hnotin Hnd']; subst.
    destruct (String.eqb key k') eqn:E; simpl.
    + apply String.eqb_eq in E. subst k'. split; [assumption | intuition auto].
    + destruct (IH Hnd') as [IH1 IH2]. split.
      * constructor; [| assumption]. rewrite IH2. intros [-> | H]; [| auto].
        now rewrite String.eqb_refl in E.
      * intros k. rewrite IH2. intuition auto.
Qed.

Lemma blocks_append_labels (key : string) (label : nat) (blocks : Blocks) :
  Permutation (List.concat (map snd (blocks_append key label blocks)))
              (label :: List.concat (map snd blocks)).
Proof.
  induction blocks as [| [k' indices] blocks IH]; simpl; [reflexivity |].
  destruct (String.eqb key k'); simpl.
  - rewrite <- app_assoc. simpl. symmetry. apply Permutation_middle.
  - rewrite IH. symmetry. apply Permutation_middle.
Qed.

Lemma lookup_block_In (blocks : Blocks) (k : string) (indices : list nat) :
  NoDup (map fst blocks) ->
  (In (k, indices) blocks <-> lookup_block blocks k = Some indices).
Proof.
  induction blocks as [| [k' ix] blocks IH]; simpl; intros Hnd.
  - split; [contradiction | discriminate].
  - inversion Hnd as [| ? ? Hnotin Hnd']; subst.
    destruct (String.eqb k k') eqn:E.
    + apply String.eqb_eq in E. subst k'. split.
      * intros [[= <-] | H]; [reflexivity |].
        exfalso. apply Hnotin. change k with (fst (k, indices)).
        now apply in_map.
      * intros [= <-]. now left.
    + rewrite <- (IH Hnd'). split; [| auto].
      intros [[= <- <-] | H]; [| assumption].
      now rewrite String.eqb_refl in E.
Qed.

Lemma labels_with_key_snoc (done : list (nat * scalar)) (row : nat * scalar)
      (k : string) :
  labels_with_key (done ++ [row]) k =
  labels_with_key done k ++
  (if String.eqb (spec_block_key (snd row)) k then [fst row] else []).
Proof.
  unfold labels_with_key. rewrite filter_app, map_app. simpl.
  destruct (String.eqb (spec_block_key (snd row)) k); reflexivity.
Qed.

Lemma labels_with_key_absent (done : list (nat * scalar)) (k : string) :
  (forall row, In row done -> spec_block_key (snd row) <> k) ->
  labels_with_key done k = [].
Proof.
  unfold labels_with_key. induction done as [| r done IH]; simpl; [reflexivity |].
  intros H. destruct (String.eqb (spec_block_key (snd r)) k) eqn:E.
  - apply String.eqb_eq in E. exfalso. apply (H r); auto.
  - apply IH. intros row Hrow. apply H. now right.
Qed.

Lemma blocks_of_step (blocks : Blocks) (done : list (nat * scalar))
      (row : nat * scalar) :
  blocks_of blocks done ->
  blocks_of (blocks_append (block_key_of (snd row)) (fst row) blocks)
            (done ++ [row]).
Proof.
  intros (Hnd & Hkeys & Hlook & Hperm). rewrite block_key_of_spec.
  destruct (blocks_append_keys (spec_block_key (snd row)) (fst row) blocks Hnd)
    as [Hnd' Hkeys'].
  split; [exact Hnd' |]. split; [| split].
  - intros k. rewrite Hkeys', Hkeys. split.
    + intros [-> | [r [Hr Hk]]].
      * exists row. split; [apply in_or_app; right; now left | reflexivity].
      * exists r. split; [apply in_or_app; now left | assumption].
    + intros [r [Hr Hk]]. apply in_app_or in Hr as [Hr | [<- | []]].
      * right. eauto.
      * left. now symmetry.
  - intros k Hk. rewrite lookup_block_append, labels_with_key_snoc.
    rewrite (String.eqb_sym (spec_block_key (snd row)) k).
    destruct (String.eqb k (spec_block_key (snd row))) eqn:E.
    + f_equal. f_equal.
      destruct (in_dec string_dec k (map fst blocks)) as [Hin | Hnotin].
      * now rewrite (Hlook k Hin).
      * assert (Hnone : lookup_block blocks k = None).
        { destruct (lookup_block blocks k) as [ix |] eqn:El; [| reflexivity].
          exfalso. apply Hnotin. apply (lookup_block_In _ _ _ Hnd) in El.
          change k with (fst (k, ix)). now apply in_map. }
        rewrite Hnone. symmetry. apply labels_with_key_absent.
        intros r Hr Heq. apply Hnotin. apply Hkeys. eauto.
    + rewrite app_nil_r. apply Hlook. apply Hkeys' in Hk as [-> | Hk].
      * now rewrite String.eqb_refl in E.
      * assumption.
  - rewrite blocks_append_labels, map_app. simpl.
    rewrite Hperm. apply Permutation_cons_append.
Qed.

Lemma fold_blocks_of (rows done : list (nat * scalar)) (blocks : Blocks) :
  blocks_of blocks done ->
  blocks_of (fold_left (fun blocks row =>
                          blocks_append (block_key_of (snd row)) (fst row) blocks)
                       rows blocks)
            (done ++ rows).
Proof.
  revert done blocks. induction rows as [| row rows IH]; intros done blocks H.
  - simpl. now rewrite app_nil_r.
  - simpl. replace (done ++ row :: rows) with ((done ++ [row]) ++ rows)
      by (rewrite <- app_assoc; reflexivity).
    apply IH. now apply blocks_of_step.
Qed.

Lemma build_blocks_of (rows : list (nat * scalar)) :
  blocks_of (build_blocks rows) rows.
Proof.
  unfold build_blocks. apply (fold_blocks_of rows [] []).
  unfold blocks_of. simpl. split; [constructor |].
  split; [| split; [contradiction | reflexivity]].
  intros k. split; [contradiction | intros [r [[] _]]].
Qed.

(** The blocks built from the rows of a column: distinct keys, each with the
    labels of the rows deriving it. *)
Lemma blocking_assigns_key_lists (df : DataFrame) (s : Series) :
  List.length (values s) = nrows df ->
  NoDup (map fst (build_blocks (iterrows df s))) /\
  (forall k indices,
      In (k, indices) (build_blocks (iterrows df s)) ->
      indices = labels_with_key (iterrows df s) k).
Proof.
  intros Hlen.
  destruct (build_blocks_of (iterrows df s)) as (Hnd & Hkeys & Hlook & Hperm).
  split; [exact Hnd |].
  intros k indices Hin.
  assert (Hk : In k (map fst (build_blocks (iterrows df s)))).
  { change k with (fst (k, indices)). now apply in_map. }
  apply (lookup_block_In _ _ _ Hnd) in Hin.
  rewrite (Hlook k Hk) in Hin. now injection Hin.
Qed.

Lemma combine_fst {A B : Type} (l : list A) (l' : list B) :
  List.length l = List.length l' -> map fst (combine l l') = l.
Proof.
  revert l'. induction l as [| x l IH]; intros [| y l']; simpl;
    try discriminate; [reflexivity |].
  intros [= H]. now rewrite IH.
Qed.

Lemma combine_nth_error {A B : Type} (l : list A) (l' : list B) (i : nat)
      (x : A) (y : B) :
  nth_error l i = Some x -> nth_error l' i = Some y -> In (x, y) (combine l l').
Proof.
  revert l l'. induction i as [| i IH]; intros [| a l] [| b l']; simpl;
    try discriminate.
  - intros [= ->] [= ->]. now left.
  - intros H H'. right. now apply IH.
Qed.

(** C6. Every record of the frame is filed under exactly one block key:
    ["unknown"] when the blocking value is missing or its lower-cased text
    has fewer than 3 characters, otherwise the first 3 characters of the
    first whitespace-delimited token (of the text itself when it has no
    token).  A block lists exactly the records deriving its key, and the
    blocks together hold every record once. *)
Theorem blocking_assigns_one_key (df : DataFrame) (s : Series) :
  List.length (values s) = nrows df ->
  let blocks := build_blocks (iterrows df s) in
  (forall v, block_key_of v = spec_block_key v) /\
  NoDup (map fst blocks) /\
  (forall i label v,
      nth_error (index df) i = Some label ->
      nth_error (values s) i = Some v ->
      exists indices,
        In (spec_block_key v, indices) blocks /\ In label indices) /\
  (forall k indices,
      In (k, indices) blocks -> indices = labels_with_key (iterrows df s) k) /\
  Permutation (List.concat (map snd blocks)) (index df).
Proof.
  intros Hlen blocks.
  destruct (build_blocks_of (iterrows df s)) as (Hnd & Hkeys & Hlook & Hperm).
  fold blocks in Hnd, Hkeys, Hlook, Hperm.
  split; [exact block_key_of_spec |]. split; [exact Hnd |].
  split; [| split].
  - intros i label v Hi Hv.
    assert (Hrow : In (label, v) (iterrows df s))
      by (eapply combine_nth_error; eauto).
    assert (Hk : In (spec_block_key v) (map fst blocks)).
    { apply Hkeys. exists (label, v). auto. }
    exists (labels_with_key (iterrows df s) (spec_block_key v)). split.
    + apply lookup_block_In; auto.
    + unfold labels_with_key. change label with (fst (label, v)).
      apply in_map. apply filter_In. split; [assumption |].
      simpl. apply String.eqb_refl.
  - intros k indices Hin.
    assert (Hk : In k (map fst blocks)).
    { change k with (fst (k, indices)). now apply in_map. }
    apply (lookup_block_In _ _ _ Hnd) in Hin.
    rewrite (Hlook k Hk) in Hin. now injection Hin.
  - rewrite Hperm. unfold iterrows. rewrite combine_fst; [reflexivity |].
    symmetry. exact Hlen.
Qed.

Lemma blocking_assigns_one_key_witness :
  build_blocks (iterrows df_people
                  (mkSeries "full_name" object_
                     [Str "Jonathan Smith"; Str "Jonathan Smyth"; Str "Jon Snow"]))
  = [("jon", [0; 1; 2])] /\
  Permutation [0; 1; 2] (index df_people).
Proof.
  split; [reflexivity |].
  apply (blocking_assigns_one_key df_people
           (mkSeries "full_name" object_
              [Str "Jonathan Smith"; Str "Jonathan Smyth"; Str "Jon Snow"])
           eq_refl).
Defined.

(** ** Fuzzy scorer *)

Section Scorer.

Variable ratio : string -> string -> Q.
Variable df : DataFrame.
Hypothesis df_wf : well_formed df.

Lemma truthy_eqb (s : string) : truthy s = negb (String.eqb s "").
Proof. destruct s; reflexivity. Qed.

Lemma iloc_cell_ok (idx : nat) (col : string) :
  has_column df col = true ->
  idx < nrows df ->
  iloc_cell df idx col = Ok (cell_at df idx col).
Proof.
  intros Hcol Hidx. unfold iloc_cell, cell_at.
  apply Nat.ltb_lt in Hidx as Hb. rewrite Hb.
  apply has_column_In in Hcol.
  destruct (getitem_columns _ _ Hcol) as [s Hs]. rewrite Hs. cbn [bind].
  destruct (getitem_Ok _ _ _ Hs) as [Hin _].
  destruct df_wf as [_ Hlen]. rewrite Forall_forall in Hlen.
  specialize (Hlen s Hin).
  destruct (nth_error (values s) idx) as [v |] eqn:E.
  - now rewrite (nth_error_nth _ _ NaN E).
  - apply nth_error_None in E. lia.
Qed.

Lemma score_body_spec (idx1 idx2 : nat) (acc : Q * nat) (col : string) :
  idx1 < nrows df -> idx2 < nrows df ->
  score_body ratio df idx1 idx2 acc col =
  Ok (if has_column df col
         && contributes (cell_at df idx1 col) (cell_at df idx2 col)
      then ((fst acc + ratio (normalize (cell_at df idx1 col))
                             (normalize (cell_at df idx2 col)))%Q,
            S (snd acc))
      else acc).
Proof.
  intros H1 H2. unfold score_body.
  destruct (has_column df col) eqn:Hcol; [| reflexivity].
  rewrite !iloc_cell_ok by assumption. cbn [bind].
  unfold contributes. rewrite !truthy_eqb. simpl.
  destruct (_ && _ && _); reflexivity.
Qed.

Lemma for_each_score_body (idx1 idx2 : nat) (cols : list string) (acc : Q * nat) :
  idx1 < nrows df -> idx2 < nrows df ->
  for_each (score_body ratio df idx1 idx2) cols acc =
  Ok (fold_left Qplus
                (contributing_scores ratio (compared_cells df idx1 idx2 cols))
                (fst acc),
      snd acc
      + List.length (contributing_scores ratio (compared_cells df idx1 idx2 cols))).
Proof.
  intros H1 H2. revert acc.
  induction cols as [| c cols IH]; intros acc.
  - simpl. rewrite Nat.add_0_r. now destruct acc.
  - cbn [for_each]. rewrite score_body_spec by assumption. cbn [bind].
    rewrite IH. unfold compared_cells, contributing_scores. cbn [filter].
    destruct (has_column df c); simpl; [| reflexivity].
    destruct (contributes (cell_at df idx1 c) (cell_at df idx2 c)); simpl;
      [| reflexivity].
    now rewrite Nat.add_succ_r.
Qed.

Lemma calculate_fuzzy_score_mean (idx1 idx2 : nat) (cols : list string) :
  idx1 < nrows df -> idx2 < nrows df ->
  calculate_fuzzy_score ratio df idx1 idx2 cols =
  Ok (mean (contributing_scores ratio (compared_cells df idx1 idx2 cols))).
Proof.
  intros H1 H2. unfold calculate_fuzzy_score.
  rewrite for_each_score_body by assumption. cbn [bind fst snd]. simpl.
  destruct (contributing_scores ratio (compared_cells df idx1 idx2 cols));
    reflexivity.
Qed.

Lemma contributes_same (v : scalar) : contributes v v = false.
Proof.
  unfold contributes. rewrite String.eqb_refl. simpl.
  now rewrite andb_false_r.
Qed.

Lemma contributing_scores_identical (idx1 idx2 : nat) (cols : list string) :
  (forall col, In col cols -> cell_at df idx1 col = cell_at df idx2 col) ->
  contributing_scores ratio (compared_cells df idx1 idx2 cols) = [].
Proof.
  intros Hsame. unfold contributing_scores, compared_cells.
  induction cols as [| c cols IH]; simpl; [reflexivity |].
  destruct (has_column df c); simpl.
  - rewrite (Hsame c) by now left. rewrite contributes_same.
    apply IH. intros col Hcol. apply Hsame. now right.
  - apply IH. intros col Hcol. apply Hsame. now right.
Qed.

End Scorer.

(** *** The normalization of the scorer is lower-casing and trimming *)

Lemma is_blank_is_space (c : ascii) : is_blank c = PyStr.is_space c.
Proof. destruct c as [[] [] [] [] [] [] [] []]; reflexivity. Qed.

Lemma lower_cased_lower (s : string) : lower_cased s = PyStr.lower s.
Proof.
  induction s as [| c s IH]; simpl; [reflexivity |]. rewrite IH. f_equal.
  destruct c as [[] [] [] [] [] [] [] []]; reflexivity.
Qed.

Lemma trim_left_lstrip (s : string) : trim_left s = PyStr.lstrip s.
Proof.
  induction s as [| c s IH]; simpl; [reflexivity |].
  now rewrite is_blank_is_space, IH.
Qed.

Lemma lstrip_snoc (t : string) (c : ascii) :
  PyStr.lstrip (t ++ String c EmptyString) =
  match PyStr.lstrip t with
  | EmptyString => if PyStr.is_space c then EmptyString else String c EmptyString
  | kept => (kept ++ String c EmptyString)%string
  end.
Proof.
  induction t as [| d t IH]; simpl; [reflexivity |].
  destruct (PyStr.is_space d); [exact IH | reflexivity].
Qed.

Lemma rev_string_snoc (s acc : string) (c : ascii) :
  PyStr.rev_string (s ++ String c EmptyString) acc
  = String c (PyStr.rev_string s acc).
Proof.
  revert acc. induction s as [| d s IH]; intros acc; simpl; [reflexivity |].
  apply IH.
Qed.

Lemma trim_right_rstrip (s : string) : trim_right s = PyStr.rstrip s.
Proof.
  unfold PyStr.rstrip. induction s as [| c s IH]; [reflexivity |].
  cbn [trim_right PyStr.rev_string]. rewrite IH.
  rewrite (rev_string_acc s (String c EmptyString)), lstrip_snoc.
  rewrite <- is_blank_is_space.
  destruct (PyStr.lstrip (PyStr.rev_string s EmptyString)) as [| d kept].
  - simpl. now destruct (is_blank c).
  - rewrite rev_string_snoc.
    destruct (PyStr.rev_string (String d kept) EmptyString) eqn:E;
      [| reflexivity].
    simpl in E. rewrite rev_string_acc in E. now destruct (PyStr.rev_string kept EmptyString).
Qed.

Lemma normalize_normalized_text (v : scalar) : normalize v = normalized_text v.
Proof.
  unfold normalize, normalized_text, trimmed, PyStr.strip.
  now rewrite trim_right_rstrip, trim_left_lstrip, lower_cased_lower.
Qed.

Lemma contributing_scores_similarities (ratio : string -> string -> Q)
      (cells : list (scalar * scalar)) :
  contributing_scores ratio cells = similarities ratio cells.
Proof.
  unfold contributing_scores, similarities.
  rewrite (filter_ext _ (fun p => negb (skipped (fst p) (snd p)))).
  - apply map_ext. intros p. now rewrite !normalize_normalized_text.
  - intros p. unfold contributes, skipped.
    now rewrite !normalize_normalized_text, !negb_orb.
Qed.

Lemma similarities_same (ratio : string -> string -> Q)
      (cells : list (scalar * scalar)) :
  Forall (fun p => normalized_text (fst p) = normalized_text (snd p)) cells ->
  similarities ratio cells = [].
Proof.
  unfold similarities, skipped.
  induction 1 as [| p cells Hp _ IH]; simpl; [reflexivity |].
  rewrite Hp, String.eqb_refl, orb_true_r. exact IH.
Qed.

(** C8. The scorer normalizes the two values of every compared column by
    lower-casing and trimming them, leaves out the columns where one
    normalized value is empty or the two are identical, and returns the
    arithmetic mean of the similarities of the remaining columns, 0 when
    none remains; so two records whose values agree in every compared
    column (as stored, or after normalization) score 0, not 100. *)
Theorem calculate_fuzzy_score_is_mean (ratio : string -> string -> Q)
        (df : DataFrame) (idx1 idx2 : nat) (cols : list string) :
  well_formed df -> idx1 < nrows df -> idx2 < nrows df ->
  calculate_fuzzy_score ratio df idx1 idx2 cols =
    Ok (mean (similarities ratio (compared_cells df idx1 idx2 cols)))
  /\ ((forall col, In col cols ->
                   normalized_text (cell_at df idx1 col)
                   = normalized_text (cell_at df idx2 col)) ->
      calculate_fuzzy_score ratio df idx1 idx2 cols = Ok 0%Q)
  /\ ((forall col, In col cols -> cell_at df idx1 col = cell_at df idx2 col) ->
      calculate_fuzzy_score ratio df idx1 idx2 cols = Ok 0%Q).
Proof.
  intros Hwf H1 H2.
  assert (Hmean : calculate_fuzzy_score ratio df idx1 idx2 cols =
                  Ok (mean (similarities ratio (compared_cells df idx1 idx2 cols)))).
  { rewrite calculate_fuzzy_score_mean by assumption.
    now rewrite contributing_scores_similarities. }
  assert (Hsame : (forall col, In col cols ->
                      normalized_text (cell_at df idx1 col)
                      = normalized_text (cell_at df idx2 col)) ->
                  calculate_fuzzy_score ratio df idx1 idx2 cols = Ok 0%Q).
  { intros Hn. rewrite Hmean, similarities_same; [reflexivity |].
    unfold compared_cells. apply Forall_forall. intros p Hp.
    apply in_map_iff in Hp as [col [<- Hcol]]. apply filter_In in Hcol as [Hcol _].
    simpl. now apply Hn. }
  split; [exact Hmean |]. split; [exact Hsame |].
  intros Heq. apply Hsame. intros col Hcol. now rewrite (Heq col Hcol).
Qed.

Lemma calculate_fuzzy_score_is_mean_witness :
  calculate_fuzzy_score indel_ratio df_firms 0 1 ["company"; "town"; "notes"]
  = Ok (mean [indel_ratio "oslo" "olso"])
  /\ calculate_fuzzy_score indel_ratio df_firms 0 2 ["company"; "town"]
     = Ok (mean [indel_ratio "acme ltd" "acme limited"])
  /\ calculate_fuzzy_score indel_ratio df_firms 0 1 ["company"] = Ok 0%Q
  /\ calculate_fuzzy_score indel_ratio df_firms 2 2 ["company"; "town"; "notes"]
     = Ok 0%Q.
Proof.
  assert (Hwf : well_formed df_firms) by (apply well_formedb_spec; reflexivity).
  assert (H0 : 0 < nrows df_firms) by (vm_compute; lia).
  assert (H1 : 1 < nrows df_firms) by (vm_compute; lia).
  assert (H2 : 2 < nrows df_firms) by (vm_compute; lia).
  split; [| split; [| split]].
  - exact (proj1 (calculate_fuzzy_score_is_mean indel_ratio df_firms 0 1
                    ["company"; "town"; "notes"] Hwf H0 H1)).
  - exact (proj1 (calculate_fuzzy_score_is_mean indel_ratio df_firms 0 2
                    ["company"; "town"] Hwf H0 H2)).
  - apply (proj1 (proj2 (calculate_fuzzy_score_is_mean indel_ratio df_firms 0 1
                           ["company"] Hwf H0 H1))).
    intros col [<- | []]. reflexivity.
  - apply (proj2 (proj2 (calculate_fuzzy_score_is_mean indel_ratio df_firms 2 2
                           ["company"; "town"; "notes"] Hwf H2 H2))).
    reflexivity.
Defined.

(** C9. A missing value takes part in the comparison as the text ["nan"]:
    when one of the two cells is missing and the other normalizes to a
    non-empty text other than ["nan"], the column adds the similarity
    between ["nan"] and that text to the total and counts as a scored
    column. *)
Theorem missing_value_scored_as_nan (ratio : string -> string -> Q)
        (df : DataFrame) (idx1 idx2 : nat) (col : string) (v : scalar)
        (acc : Q * nat) :
  has_column df col = true ->
  normalize v <> "" -> normalize v <> "nan" ->
  (iloc_cell df idx1 col = Ok NaN -> iloc_cell df idx2 col = Ok v ->
   score_body ratio df idx1 idx2 acc col
   = Ok ((fst acc + ratio "nan" (normalize v))%Q, S (snd acc)))
  /\ (iloc_cell df idx1 col = Ok v -> iloc_cell df idx2 col = Ok NaN ->
      score_body ratio df idx1 idx2 acc col
      = Ok ((fst acc + ratio (normalize v) "nan")%Q, S (snd acc)))
  /\ (iloc_cell df idx1 col = Ok NaN -> iloc_cell df idx2 col = Ok v ->
      exists score, calculate_fuzzy_score ratio df idx1 idx2 [col] = Ok score
                    /\ (score == ratio "nan" (normalize v))%Q).
Proof.
  intros Hcol Hne Hnan.
  assert (Hne' : String.eqb (normalize v) "" = false)
    by now apply String.eqb_neq.
  assert (Hnan1 : String.eqb "nan" (normalize v) = false).
  { apply String.eqb_neq. congruence. }
  assert (Hnan2 : String.eqb (normalize v) "nan" = false)
    by now apply String.eqb_neq.
  assert (Hstep : iloc_cell df idx1 col = Ok NaN -> iloc_cell df idx2 col = Ok v ->
                  forall a, score_body ratio df idx1 idx2 a col
                  = Ok ((fst a + ratio "nan" (normalize v))%Q, S (snd a))).
  { intros E1 E2 a. unfold score_body. rewrite Hcol, E1, E2. cbn [bind].
    rewrite !truthy_eqb. change (normalize NaN) with "nan".
    rewrite Hne', Hnan1. reflexivity. }
  split; [intros E1 E2; now apply Hstep |]. split.
  - intros E1 E2. unfold score_body. rewrite Hcol, E1, E2. cbn [bind].
    rewrite !truthy_eqb. change (normalize NaN) with "nan".
    rewrite Hne', Hnan2. reflexivity.
  - intros E1 E2. unfold calculate_fuzzy_score. cbn [for_each].
    rewrite (Hstep E1 E2). cbn [bind fst snd]. eexists. split; [reflexivity |].
    simpl. field.
Qed.

Lemma missing_value_scored_as_nan_witness :
  score_body indel_ratio df_people 1 0 (0%Q, 0) "notes"
  = Ok ((0 + indel_ratio "nan" "vip")%Q, 1).
Proof.
  refine (proj1 (missing_value_scored_as_nan indel_ratio df_people 1 0 "notes"
                   (Str "vip") (0%Q, 0) eq_refl _ _) eq_refl eq_refl).
  - vm_compute. discriminate.
  - vm_compute. discriminate.
Defined.

(** ** Blocks beyond the maximum size *)

Lemma for_each_app {A S : Type} (body : S -> A -> result S) (xs ys : list A)
      (acc : S) :
  for_each body (xs ++ ys) acc =
  (acc' <- for_each body xs acc ;; for_each body ys acc').
Proof.
  revert acc. induction xs as [| x xs IH]; intros acc; simpl; [reflexivity |].
  destruct (body acc x); simpl; [apply IH | reflexivity].
Qed.

(** C7. A block with more records than the maximum block size adds no
    candidate pair: the loop over the blocks leaves the matches as they
    were, whatever the records of the block look like, so the tier's
    result is the one obtained without that block. *)
Theorem oversized_block_contributes_nothing (ratio : string -> string -> Q)
        (df : DataFrame) (cols : list string) (threshold : Q) (tier : Tier)
        (max_block_size : nat) (block : string * list nat) :
  max_block_size < List.length (snd block) ->
  (forall acc,
      block_body ratio df cols threshold tier max_block_size acc block = Ok acc)
  /\ (forall before after acc,
         for_each (block_body ratio df cols threshold tier max_block_size)
                  (before ++ block :: after) acc
         = for_each (block_body ratio df cols threshold tier max_block_size)
                    (before ++ after) acc).
Proof.
  intros Hbig.
  assert (Hskip : forall acc,
             block_body ratio df cols threshold tier max_block_size acc block
             = Ok acc).
  { intros acc. unfold block_body.
    apply Nat.ltb_lt in Hbig. rewrite Hbig. now rewrite orb_true_r. }
  split; [exact Hskip |].
  intros before after acc. rewrite !for_each_app.
  destruct (for_each _ before acc) as [acc' |]; [| reflexivity].
  cbn [bind for_each]. now rewrite Hskip.
Qed.

Lemma oversized_block_contributes_nothing_witness :
  fuzzy_match_strategy indel_ratio df_people ["full_name"] 85 LOW 100
  = Ok [mkMatch (Str "REC_000000") (Str "REC_000001") (2600 # 2800) LOW]
  /\ fuzzy_match_strategy indel_ratio df_people ["full_name"] 85 LOW 2 = Ok []
  /\ block_body indel_ratio df_people ["full_name"] 85 LOW 2 []
                ("jon", [0; 1; 2]) = Ok [].
Proof.
  split; [reflexivity |]. split; [reflexivity |].
  refine (proj1 (oversized_block_contributes_nothing indel_ratio df_people
                   ["full_name"] 85 LOW 2 ("jon", [0; 1; 2]) _) []).
  simpl. lia.
Defined.

(** ** Pairs, selections and subsequences *)

Lemma map_nth_seq {A : Type} (d : A) (l : list A) :
  map (fun j => nth j l d) (seq 0 (List.length l)) = l.
Proof.
  induction l as [| x l IH]; simpl; [reflexivity |].
  f_equal. rewrite <- seq_shift, map_map. exact IH.
Qed.

Lemma index_pairs_pairs {A : Type} (d : A) (l : list A) :
  index_pairs d l = pairs l.
Proof.
  unfold index_pairs. induction l as [| x l IH]; [reflexivity |].
  cbn [List.length seq flat_map pairs]. f_equal.
  - cbn [Nat.add Nat.sub]. rewrite Nat.sub_0_r.
    rewrite <- seq_shift, map_map. cbn [nth].
    rewrite <- (map_nth_seq d l) at 2. rewrite map_map. reflexivity.
  - rewrite <- IH. rewrite <- seq_shift, flat_map_concat_map, map_map.
    rewrite <- flat_map_concat_map. apply flat_map_ext. intros i.
    cbn [Nat.add Nat.sub nth].
    rewrite <- seq_shift, map_map. reflexivity.
Qed.

Lemma length_pairs {A : Type} (l : list A) :
  List.length (pairs l) = List.length l * (List.length l - 1) / 2.
Proof.
  induction l as [| x l IH]; [reflexivity |].
  cbn [pairs List.length]. rewrite length_app, length_map, IH.
  rewrite Nat.sub_succ, Nat.sub_0_r.
  destruct (List.length l) as [| n]; [reflexivity |].
  rewrite Nat.sub_succ, Nat.sub_0_r.
  replace (S (S n) * S n) with (S n * n + S n * 2) by lia.
  rewrite Nat.div_add by lia. lia.
Qed.


Lemma in_pairs_elements {A : Type} (l : list A) (a b : A) :
  In (a, b) (pairs l) -> In a l /\ In b l.
Proof.
  induction l as [| x l IH]; simpl; [contradiction |].
  intros H. apply in_app_or in H as [H | H].
  - apply in_map_iff in H as [y [[= <- <-] Hy]]. auto.
  - destruct (IH H). auto.
Qed.


Lemma subseq_refl {A : Type} (l : list A) : subseq l l.
Proof. induction l; constructor; assumption. Qed.

Lemma subseq_nil_l {A : Type} (l : list A) : subseq [] l.
Proof. induction l; constructor; assumption. Qed.


Lemma subseq_In {A : Type} (l' l : list A) (x : A) :
  subseq l' l -> In x l' -> In x l.
Proof.
  induction 1; simpl; intuition auto.
Qed.

Lemma subseq_map {A B : Type} (f : A -> B) (l' l : list A) :
  subseq l' l -> subseq (map f l') (map f l).
Proof. induction 1; simpl; constructor; assumption. Qed.

Lemma subseq_filter {A : Type} (f : A -> bool) (l : list A) :
  subseq (filter f l) l.
Proof.
  induction l as [| x l IH]; simpl; [constructor |].
  destruct (f x); constructor; assumption.
Qed.



Lemma select_map {A B : Type} (f : A -> B) (mask : list bool) (l : list A) :
  select mask (map f l) = map f (select mask l).
Proof.
  revert mask. induction l as [| x l IH]; intros [| b mask]; simpl;
    try reflexivity.
  destruct b; simpl; now rewrite IH.
Qed.

Lemma select_nil {A : Type} (mask : list bool) : select mask (@nil A) = [].
Proof. destruct mask as [| [] mask]; reflexivity. Qed.

(** Selecting the rows of one key among the rows kept by a mask that keeps
    that key is selecting them among all rows. *)
Lemma select_key_select (f : scalar -> bool) (key : scalar)
      (vals ids : list scalar) :
  f key = true ->
  select (map (scalar_eqb key) (select (map f vals) vals))
         (select (map f vals) ids)
  = select (map (scalar_eqb key) vals) ids.
Proof.
  intros Hkey. revert ids.
  induction vals as [| v vals IH]; intros [| i ids]; simpl; try reflexivity.
  - destruct (f v); simpl; rewrite ?select_nil; reflexivity.
  - destruct (f v) eqn:Hv; simpl.
    + destruct (scalar_eqb key v); now rewrite IH.
    + unfold scalar_eqb at 2. destruct (scalar_eq_dec key v) as [-> | _].
      * congruence.
      * apply IH.
Qed.

Lemma length_select_key (key : scalar) (vals ids : list scalar) :
  List.length ids = List.length vals ->
  List.length (group_ids vals ids key) = count_occ scalar_eq_dec vals key.
Proof.
  unfold group_ids. revert ids.
  induction vals as [| v vals IH]; intros [| i ids]; simpl; try discriminate;
    [reflexivity |].
  intros [= Hlen]. unfold scalar_eqb.
  destruct (scalar_eq_dec key v) as [-> | Hne].
  - destruct (scalar_eq_dec v v); [| contradiction]. simpl. now rewrite IH.
  - destruct (scalar_eq_dec v key); [congruence |]. now apply IH.
Qed.

(** ** Exact matcher *)

Lemma getitem_has_column (df : DataFrame) (col : string) (s : Series) :
  getitem df col = Ok s -> has_column df col = true.
Proof.
  intros H. apply getitem_Ok in H as [Hin <-].
  apply has_column_In. unfold columns. now apply in_map.
Qed.

Lemma find_series_select (mask : list bool) (ss : list Series) (col : string) :
  find_series
    (map (fun s => mkSeries (name s) (dtype s) (select mask (values s))) ss) col
  = match find_series ss col with
    | Some s => Some (mkSeries (name s) (dtype s) (select mask (values s)))
    | None => None
    end.
Proof.
  induction ss as [| s ss IH]; simpl; [reflexivity |].
  destruct (String.eqb col (name s)); [reflexivity | exact IH].
Qed.

Lemma getitem_df_select (mask : list bool) (df : DataFrame) (col : string)
      (s : Series) :
  getitem df col = Ok s ->
  getitem (df_select mask df) col
  = Ok (mkSeries (name s) (dtype s) (select mask (values s))).
Proof.
  unfold getitem, df_select. simpl. rewrite find_series_select.
  destruct (find_series (series df) col); [| discriminate].
  now intros [= ->].
Qed.

Lemma flat_map_ext_In {A B : Type} (f g : A -> list B) (l : list A) :
  (forall x, In x l -> f x = g x) -> flat_map f l = flat_map g l.
Proof.
  induction l as [| x l IH]; simpl; [reflexivity |].
  intros H. rewrite (H x) by now left. rewrite IH; [reflexivity |].
  intros y Hy. apply H. now right.
Qed.

Section ExactMatcher.

Variable key_sort : list scalar -> list scalar.

Lemma for_each_groups (dups : DataFrame) (rid : Series)
      (mask : scalar -> list bool) (keys : list scalar) (acc : list Match) :
  getitem dups "record_id" = Ok rid ->
  for_each exact_group_matches
           (map (fun key => (key, df_select (mask key) dups)) keys) acc
  = Ok (acc ++ flat_map (fun key => exact_pairs (select (mask key) (values rid)))
                        keys).
Proof.
  intros Hrid. revert acc.
  induction keys as [| key keys IH]; intros acc; simpl.
  - now rewrite app_nil_r.
  - unfold exact_group_matches at 1. cbn [snd].
    rewrite (getitem_df_select _ _ _ _ Hrid). cbn [bind values].
    rewrite IH. now rewrite <- app_assoc.
Qed.

(** What one column adds to the matches. *)
Lemma exact_col_matches_groups (df : DataFrame) (col : string) (s rid : Series)
      (acc : list Match) :
  getitem df col = Ok s ->
  getitem df "record_id" = Ok rid ->
  exact_col_matches key_sort df acc col
  = Ok (acc ++
        flat_map (fun key =>
                    exact_pairs
                      (select (map (scalar_eqb key)
                                   (select (duplicated (values s)) (values s)))
                              (select (duplicated (values s)) (values rid))))
                 (key_sort (shared_values (values s)))).
Proof.
  intros Hs Hrid. unfold exact_col_matches.
  rewrite (getitem_has_column _ _ _ Hs), Hs. cbn [bind].
  rewrite (getitem_df_select _ _ _ _ Hs). cbn [bind].
  unfold groupby. cbn [values].
  rewrite (for_each_groups _ _ _ _ _
             (getitem_df_select (duplicated (values s)) _ _ _ Hrid)).
  reflexivity.
Qed.

Hypothesis key_sort_perm : forall l, Permutation (key_sort l) l.

Lemma shared_values_spec (vals : list scalar) (v : scalar) :
  In v (shared_values vals) <->
  isna v = false /\ 2 <= count_occ scalar_eq_dec vals v.
Proof.
  unfold shared_values. rewrite nodup_In, filter_In.
  assert (Hsel : forall l, In v (select (map (fun v => 2 <=? count_occ scalar_eq_dec vals v) l) l)
                           <-> In v l /\ 2 <= count_occ scalar_eq_dec vals v).
  { induction l as [| x l IH]; cbn [map select In]; [tauto |].
    destruct (2 <=? count_occ scalar_eq_dec vals x) eqn:E; cbn [In].
    - apply Nat.leb_le in E. rewrite IH. split.
      + intros [-> | [H1 H2]]; auto.
      + intros [[-> | H1] H2]; auto.
    - apply Nat.leb_gt in E. rewrite IH. split.
      + intros [H1 H2]; auto.
      + intros [[-> | H1] H2]; [lia | auto]. }
  unfold duplicated. rewrite Hsel, negb_true_iff. split.
  - tauto.
  - intros [Hna Hc]. split; [| assumption]. split; [| assumption].
    apply (count_occ_In scalar_eq_dec). lia.
Qed.

Lemma exact_col_matches_spec (df : DataFrame) (col : string) (s rid : Series)
      (acc : list Match) :
  getitem df col = Ok s ->
  getitem df "record_id" = Ok rid ->
  exact_col_matches key_sort df acc col
  = Ok (acc ++ flat_map (fun key => exact_pairs (group_ids (values s) (values rid) key))
                        (key_sort (shared_values (values s)))).
Proof.
  intros Hs Hrid. rewrite (exact_col_matches_groups df col s rid acc Hs Hrid).
  f_equal. f_equal. apply flat_map_ext_In. intros key Hkey.
  unfold group_ids, duplicated.
  rewrite (select_key_select
             (fun v => 2 <=? count_occ scalar_eq_dec (values s) v));
    [reflexivity |].
  apply Nat.leb_le. eapply shared_values_spec.
  eapply Permutation_in; [apply key_sort_perm | exact Hkey].
Qed.

End ExactMatcher.

Lemma in_select_key (key : scalar) (vals ids : list scalar) (b : scalar) :
  In b (group_ids vals ids key) ->
  exists j, nth_error vals j = Some key /\ nth_error ids j = Some b.
Proof.
  unfold group_ids. revert ids.
  induction vals as [| v vals IH]; intros [| i ids]; simpl; try contradiction.
  unfold scalar_eqb. destruct (scalar_eq_dec key v) as [<- | Hne].
  - intros [<- | H].
    + exists 0. auto.
    + destruct (IH ids H) as [j Hj]. exists (S j). exact Hj.
  - intros H. destruct (IH ids H) as [j Hj]. exists (S j). exact Hj.
Qed.

Lemma in_pairs_select_key (key : scalar) (vals ids : list scalar) (a b : scalar) :
  In (a, b) (pairs (group_ids vals ids key)) ->
  exists i j, i < j /\
              nth_error vals i = Some key /\ nth_error vals j = Some key /\
              nth_error ids i = Some a /\ nth_error ids j = Some b.
Proof.
  unfold group_ids. revert ids.
  induction vals as [| v vals IH]; intros [| i0 ids]; simpl; try contradiction.
  assert (Hshift : In (a, b) (pairs (select (map (scalar_eqb key) vals) ids)) ->
                   exists i j, S i < S j /\
                     nth_error vals i = Some key /\ nth_error vals j = Some key /\
                     nth_error ids i = Some a /\ nth_error ids j = Some b).
  { intros H. destruct (IH ids H) as (i & j & Hij & H'). exists i, j.
    split; [lia | exact H']. }
  unfold scalar_eqb at 1. destruct (scalar_eq_dec key v) as [<- | Hne].
  - simpl. intros H. apply in_app_or in H as [H | H].
    + apply in_map_iff in H as [y [[= <- <-] Hy]].
      destruct (in_select_key key vals ids y Hy) as [j [Hj1 Hj2]].
      exists 0, (S j). simpl. repeat split; auto. lia.
    + destruct (Hshift H) as (i & j & H'). exists (S i), (S j). exact H'.
  - intros H. destruct (Hshift H) as (i & j & H'). exists (S i), (S j). exact H'.
Qed.

Lemma insert_key_perm (x : scalar) (l : list scalar) :
  Permutation (insert_key x l) (x :: l).
Proof.
  induction l as [| y l IH]; simpl; [reflexivity |].
  destruct (scalar_leb x y); [reflexivity |].
  rewrite IH. apply perm_swap.
Qed.

Lemma sort_keys_perm (l : list scalar) : Permutation (sort_keys l) l.
Proof.
  induction l as [| x l IH]; simpl; [reflexivity |].
  rewrite insert_key_perm. now constructor.
Qed.

(** C4 (as stated) fails: the matcher groups by the value as the frame
    holds it and normalizes nothing.  The three records of [df_codes] share
    the normalized value ["a1"] in the exact-key column ["order_id"], a
    group of 3, and the matcher emits no pair at all instead of 3. *)
Lemma exact_matcher_ignores_normalized_groups :
  ~ (forall (df : DataFrame) (ct : ColTypes) (col : string) (s rid : Series)
            (key : string) (ms : list Match),
        well_formed df ->
        classify_columns df = Ok ct ->
        In col (exact ct) ->
        getitem df col = Ok s ->
        getitem df "record_id" = Ok rid ->
        find_exact_matches sort_keys df [col] = Ok ms ->
        let group := normalized_group_ids (values s) (values rid) key in
        2 <= List.length group ->
        List.length (filter (within group) ms)
        = List.length group * (List.length group - 1) / 2).
Proof.
  intros H.
  specialize (H df_codes (mkColTypes ["order_id"] [] [] [] []) "order_id"
                (mkSeries "order_id" object_ [Str "A1"; Str "a1"; Str "A1 "])
                (mkSeries "record_id" object_
                   [Str "REC_000000"; Str "REC_000001"; Str "REC_000002"])
                "a1" []).
  assert (Hwf : well_formed df_codes) by (apply well_formedb_spec; reflexivity).
  specialize (H Hwf eq_refl (or_introl eq_refl) eq_refl eq_refl eq_refl).
  vm_compute in H. specialize (H (le_S _ _ (le_n 2))). discriminate.
Qed.

(** C4 (amended). For an exact-key column, the matcher forms one group per
    non-missing value held by at least two records, the values compared as
    the frame holds them, and emits, group after group, every pair of
    records of the group: k (k - 1) / 2 matches for a group of k records,
    each scored 1.0 with tier EXACT, each joining two different rows that
    hold the group's value; nothing else is emitted. *)
Theorem exact_matcher_emits_group_pairs (key_sort : list scalar -> list scalar)
        (df : DataFrame) (col : string) (s rid : Series) :
  (forall l, Permutation (key_sort l) l) ->
  well_formed df ->
  getitem df col = Ok s ->
  getitem df "record_id" = Ok rid ->
  let vals := values s in
  let ids := values rid in
  let groups := key_sort (shared_values vals) in
  NoDup groups /\
  (forall v, In v groups <->
             isna v = false /\ 2 <= count_occ scalar_eq_dec vals v) /\
  (forall acc,
      exact_col_matches key_sort df acc col
      = Ok (acc ++ flat_map (fun v => exact_pairs (group_ids vals ids v)) groups)) /\
  find_exact_matches key_sort df [col]
  = Ok (flat_map (fun v => exact_pairs (group_ids vals ids v)) groups) /\
  (forall v,
      let k := count_occ scalar_eq_dec vals v in
      List.length (exact_pairs (group_ids vals ids v)) = k * (k - 1) / 2 /\
      forall m, In m (exact_pairs (group_ids vals ids v)) ->
                match_score m = 1%Q /\ match_tier m = EXACT /\
                exists i j, i < j /\
                            nth_error vals i = Some v /\
                            nth_error vals j = Some v /\
                            nth_error ids i = Some (record_id_l m) /\
                            nth_error ids j = Some (record_id_r m)).
Proof.
  intros Hperm [Hnd Hlen] Hs Hrid vals ids groups.
  rewrite Forall_forall in Hlen.
  assert (Hl : List.length ids = List.length vals).
  { unfold ids, vals.
    rewrite (Hlen s), (Hlen rid); [reflexivity | |];
      eapply getitem_Ok; eassumption. }
  split; [| split; [| split; [| split]]].
  - eapply Permutation_NoDup; [symmetry; apply Hperm |]. apply NoDup_nodup.
  - intros v. unfold groups. rewrite <- shared_values_spec. split; intros H.
    + eapply Permutation_in; [apply Hperm | exact H].
    + eapply Permutation_in; [symmetry; apply Hperm | exact H].
  - intros acc.
    apply (exact_col_matches_spec key_sort Hperm df col s rid acc Hs Hrid).
  - unfold find_exact_matches. cbn [for_each].
    rewrite (exact_col_matches_spec key_sort Hperm df col s rid [] Hs Hrid).
    reflexivity.
  - intros v k. unfold exact_pairs. rewrite length_map, index_pairs_pairs. split.
    + rewrite length_pairs, length_select_key by assumption. reflexivity.
    + intros m Hm. apply in_map_iff in Hm as [[a b] [<- Hab]]. simpl.
      split; [reflexivity |]. split; [reflexivity |].
      now apply in_pairs_select_key.
Qed.

Lemma exact_matcher_emits_group_pairs_witness :
  find_exact_matches sort_keys df_orders ["amount"]
  = Ok [ mkMatch (Str "REC_000000") (Str "REC_000002") 1 EXACT;
         mkMatch (Str "REC_000000") (Str "REC_000003") 1 EXACT;
         mkMatch (Str "REC_000002") (Str "REC_000003") 1 EXACT ].
Proof.
  refine (proj1 (proj2 (proj2 (proj2
    (exact_matcher_emits_group_pairs sort_keys df_orders "amount"
       (mkSeries "amount" int64 [Int 1; Int 2; Int 1; Int 1])
       (mkSeries "record_id" object_
          [Str "REC_000000"; Str "REC_000001"; Str "REC_000002";
           Str "REC_000003"])
       sort_keys_perm _ eq_refl eq_refl))))).
  apply well_formedb_spec. reflexivity.
Defined.

(** ** Fuzzy matching: every match joins two rows, the earlier one first *)

Section FuzzyMatches.

Variable ratio : string -> string -> Q.
Variable df : DataFrame.
Variable rid : Series.
Hypothesis df_wf : well_formed df.
Hypothesis df_rid : getitem df "record_id" = Ok rid.

Lemma rid_length : List.length (values rid) = nrows df.
Proof.
  destruct df_wf as [_ Hlen]. rewrite Forall_forall in Hlen.
  apply Hlen. eapply getitem_Ok. exact df_rid.
Qed.

Lemma iloc_record_id (idx : nat) :
  idx < nrows df ->
  iloc_cell df idx "record_id" = Ok (nth idx (values rid) NaN).
Proof.
  intros H. rewrite (iloc_cell_ok df df_wf) by
    (try assumption; eapply getitem_has_column; exact df_rid).
  unfold cell_at. now rewrite df_rid.
Qed.






Hypothesis df_range : range_index df.


End FuzzyMatches.

(** ** Exact matching: every match joins two rows, the earlier one first *)

Section ExactRows.

Variable key_sort : list scalar -> list scalar.
Variable df : DataFrame.
Variable rid : Series.
Hypothesis df_rid : getitem df "record_id" = Ok rid.




End ExactRows.

(** ** Tiered aggregation *)

Lemma id_pair_eqb_eq (p q : scalar * scalar) :
  id_pair_eqb p q = true <-> p = q.
Proof.
  unfold id_pair_eqb, scalar_eqb. destruct p as [a b], q as [c d]. simpl.
  destruct (scalar_eq_dec a c), (scalar_eq_dec b d); simpl;
    split; intros H; try discriminate; try congruence.
Qed.

Lemma existsb_id_pair (p : scalar * scalar) (seen : list (scalar * scalar)) :
  existsb (id_pair_eqb p) seen = true <-> In p seen.
Proof.
  rewrite existsb_exists. split.
  - intros [q [Hq Heq]]. apply id_pair_eqb_eq in Heq. now subst.
  - intros H. exists p. split; [assumption | now apply id_pair_eqb_eq].
Qed.

Lemma drop_duplicates_from_In (seen : list (scalar * scalar)) (ms : list Match)
      (m : Match) :
  In m (drop_duplicates_from seen ms) -> In m ms /\ ~ In (id_pair m) seen.
Proof.
  revert seen. induction ms as [| m0 ms IH]; intros seen; simpl; [contradiction |].
  destruct (existsb (id_pair_eqb (id_pair m0)) seen) eqn:E.
  - intros H. destruct (IH _ H). auto.
  - intros [<- | H].
    + split; [now left |]. intros Hin. apply existsb_id_pair in Hin. congruence.
    + destruct (IH _ H) as [H1 H2]. split; [now right |].
      intros Hin. apply H2. now right.
Qed.







Section Aggregator.

Variable ratio : string -> string -> Q.
Variable key_sort : list scalar -> list scalar.
Variable df : DataFrame.
Variable rid : Series.
Hypothesis df_wf : well_formed df.
Hypothesis df_range : range_index df.
Hypothesis df_rid : getitem df "record_id" = Ok rid.



End Aggregator.



(** ** Synthetic record identifiers *)

Lemma uint_of_zeros (k : nat) (d : Decimal.uint) :
  exists d', NilEmpty.uint_of_string (zeros k ++ NilEmpty.string_of_uint d)
             = Some d' /\
             Nat.of_uint d' = Nat.of_uint d.
Proof.
  induction k as [| k [d' [IH1 IH2]]]; simpl.
  - exists d. split; [apply NilEmpty.usu | reflexivity].
  - rewrite IH1. exists (Decimal.D0 d'). split; [reflexivity |].
    rewrite <- Unsigned.of_uint_norm. simpl.
    rewrite Unsigned.of_uint_norm. exact IH2.
Qed.

Lemma format_06d_inj (i j : nat) : format_06d i = format_06d j -> i = j.
Proof.
  unfold format_06d. intros H.
  destruct (uint_of_zeros
              (6 - String.length (NilEmpty.string_of_uint (Nat.to_uint i)))
              (Nat.to_uint i)) as [di [Hi1 Hi2]].
  destruct (uint_of_zeros
              (6 - String.length (NilEmpty.string_of_uint (Nat.to_uint j)))
              (Nat.to_uint j)) as [dj [Hj1 Hj2]].
  rewrite H, Hj1 in Hi1. injection Hi1 as ->.
  rewrite <- (Unsigned.of_to i), <- (Unsigned.of_to j). congruence.
Qed.

Lemma synthetic_ids_NoDup (n : nat) : NoDup (synthetic_ids n).
Proof.
  unfold synthetic_ids. generalize (seq_NoDup n 0).
  induction (seq 0 n) as [| i l IH]; simpl; intros Hnd; [constructor |].
  inversion Hnd as [| ? ? Hi Hnd']; subst. constructor; [| auto].
  intros Hin. apply in_map_iff in Hin as [j [Hj Hin]].
  injection Hj as Hj. apply format_06d_inj in Hj. now subst.
Qed.



Lemma with_record_id_old (df : DataFrame) :
  has_column df "record_id" = true -> with_record_id df = df.
Proof. intros H. unfold with_record_id. now rewrite H. Qed.


Lemma nrows_with_record_id (df : DataFrame) :
  nrows (with_record_id df) = nrows df.
Proof.
  unfold with_record_id. destruct (negb (has_column df "record_id"));
    [| reflexivity].
  unfold setitem. destruct (has_column df "record_id"); reflexivity.
Qed.




(** ** Pipeline driver *)

Section Driver.

Variable ratio : string -> string -> Q.
Variable key_sort : list scalar -> list scalar.
Variable file : Type.
Variable parse_csv : file -> option nat -> result DataFrame.
Variable to_csv : list Match -> file.

Lemma nrows_setitem (df : DataFrame) (col : string) (d : Dtype)
      (vals : list scalar) :
  nrows (setitem df col d vals) = nrows df.
Proof. unfold setitem. destruct (has_column df col); reflexivity. Qed.

(** When the first attempt fails, the driver's answer is decided by the
    second read alone. *)
Lemma run_dynamic_dedup_fallback (data_path : string) (w w' : World file)
      (e : exn) :
  match read_csv file parse_csv w data_path None with
  | Ok df => universal_deduplication ratio key_sort file to_csv df w
  | Raise e0 => (Raise e0, w)
  end = (Raise e, w') ->
  run_dynamic_dedup ratio key_sort file parse_csv to_csv data_path w
  = (match read_csv file parse_csv w' data_path (Some 1000) with
     | Ok df => Ok (zero_match_result (nrows df))
     | Raise e' => Raise e'
     end, w').
Proof.
  intros H. unfold run_dynamic_dedup. rewrite H.
  destruct (read_csv file parse_csv w' data_path (Some 1000)) as [df |];
    cbn [bind]; [| reflexivity].
  now rewrite nrows_setitem.
Qed.

End Driver.

(** C1. When the file cannot be read at all, the driver does propagate a
    failure: the fallback reads the same path again, and the exception of
    that second read reaches the caller. *)
Theorem run_dynamic_dedup_unreadable_raises (ratio : string -> string -> Q)
        (key_sort : list scalar -> list scalar) (file : Type)
        (parse_csv : file -> option nat -> result DataFrame)
        (to_csv : list Match -> file) (data_path : string) (w : World file)
        (e e' : exn) :
  read_csv file parse_csv w data_path None = Raise e ->
  read_csv file parse_csv w data_path (Some 1000) = Raise e' ->
  run_dynamic_dedup ratio key_sort file parse_csv to_csv data_path w
  = (Raise e', w).
Proof.
  intros H1 H2.
  rewrite (run_dynamic_dedup_fallback ratio key_sort file parse_csv to_csv
             data_path w w e).
  - now rewrite H2.
  - now rewrite H1.
Qed.

Lemma run_dynamic_dedup_unreadable_raises_witness :
  run_dynamic_dedup indel_ratio sort_keys unit reject_all write_nothing
                    "data/raw/missing.csv" no_files
  = (Raise FileNotFoundError, no_files).
Proof.
  apply (run_dynamic_dedup_unreadable_raises indel_ratio sort_keys unit
           reject_all write_nothing "data/raw/missing.csv" no_files
           FileNotFoundError FileNotFoundError); reflexivity.
Defined.

(** The fallback as far as it goes: when the first attempt fails and the
    second read of the first 1000 rows succeeds, the driver returns the
    zero-match result for the rows read. *)
Theorem run_dynamic_dedup_degrades (ratio : string -> string -> Q)
        (key_sort : list scalar -> list scalar) (file : Type)
        (parse_csv : file -> option nat -> result DataFrame)
        (to_csv : list Match -> file) (data_path : string) (w w' : World file)
        (e : exn) (df : DataFrame) :
  match read_csv file parse_csv w data_path None with
  | Ok df0 => universal_deduplication ratio key_sort file to_csv df0 w
  | Raise e0 => (Raise e0, w)
  end = (Raise e, w') ->
  read_csv file parse_csv w' data_path (Some 1000) = Ok df ->
  run_dynamic_dedup ratio key_sort file parse_csv to_csv data_path w
  = (Ok (zero_match_result (nrows df)), w') /\
  duplicate_pairs (zero_match_result (nrows df)) = 0 /\
  tiers (zero_match_result (nrows df)) = mkTiers 0 0 0 0.
Proof.
  intros H1 H2.
  rewrite (run_dynamic_dedup_fallback ratio key_sort file parse_csv to_csv
             data_path w w' e H1).
  rewrite H2. repeat split.
Qed.

Lemma run_dynamic_dedup_degrades_witness :
  run_dynamic_dedup indel_ratio sort_keys DataFrame parse_frame keep_nothing
                    "data/raw/upload.csv"
                    (one_file "data/raw/upload.csv" csv_empty_column)
  = (Ok (zero_match_result 3), one_file "data/raw/upload.csv" csv_empty_column).
Proof.
  refine (proj1 (run_dynamic_dedup_degrades indel_ratio sort_keys DataFrame
                   parse_frame keep_nothing "data/raw/upload.csv"
                   (one_file "data/raw/upload.csv" csv_empty_column)
                   (one_file "data/raw/upload.csv" csv_empty_column)
                   ZeroDivisionError (df_head 1000 csv_empty_column) _ _));
    reflexivity.
Defined.

(** ** Further properties of the fuzzy scorer *)

Lemma iloc_cell_raises (df : DataFrame) (idx : nat) (col : string) (e : exn) :
  has_column df col = true ->
  iloc_cell df idx col = Raise e -> e = IndexError.
Proof.
  intros Hcol. unfold iloc_cell. destruct (idx <? nrows df).
  - apply has_column_In in Hcol. destruct (getitem_columns _ _ Hcol) as [s ->].
    cbn [bind]. destruct (nth_error (values s) idx); [discriminate |].
    now intros [= <-].
  - now intros [= <-].
Qed.

Lemma score_body_swap (ratio : string -> string -> Q) (df : DataFrame)
      (idx1 idx2 : nat) (acc : Q * nat) (col : string) :
  (forall a b, ratio a b = ratio b a) ->
  score_body ratio df idx1 idx2 acc col = score_body ratio df idx2 idx1 acc col.
Proof.
  intros Hsym. unfold score_body.
  destruct (has_column df col) eqn:Hcol; [| reflexivity].
  destruct (iloc_cell df idx1 col) as [v1 | e1] eqn:E1;
    destruct (iloc_cell df idx2 col) as [v2 | e2] eqn:E2; cbn [bind];
    try reflexivity.
  - rewrite (String.eqb_sym (normalize v2) (normalize v1)).
    rewrite (andb_comm (truthy (normalize v2)) (truthy (normalize v1))).
    now rewrite (Hsym (normalize v2) (normalize v1)).
  - apply (iloc_cell_raises _ _ _ _ Hcol) in E1.
    apply (iloc_cell_raises _ _ _ _ Hcol) in E2. congruence.
Qed.

(** The scorer treats its two rows alike: with a symmetric similarity,
    scoring rows i and j gives what scoring rows j and i gives, be it a
    score or the IndexError of a row position outside the frame. *)
Theorem calculate_fuzzy_score_symmetric (ratio : string -> string -> Q)
        (df : DataFrame) (idx1 idx2 : nat) (cols : list string) :
  (forall a b, ratio a b = ratio b a) ->
  calculate_fuzzy_score ratio df idx1 idx2 cols
  = calculate_fuzzy_score ratio df idx2 idx1 cols.
Proof.
  intros Hsym. unfold calculate_fuzzy_score. f_equal.
  generalize (0%Q, 0) as acc.
  induction cols as [| c cols IH]; intros acc; [reflexivity |].
  cbn [for_each]. rewrite (score_body_swap ratio df idx1 idx2 acc c Hsym).
  destruct (score_body ratio df idx2 idx1 acc c); cbn [bind];
    [apply IH | reflexivity].
Qed.

Lemma same_length_ratio_sym (a b : string) :
  same_length_ratio a b = same_length_ratio b a.
Proof. unfold same_length_ratio. now rewrite Nat.eqb_sym. Qed.

Lemma calculate_fuzzy_score_symmetric_witness :
  calculate_fuzzy_score same_length_ratio df_people 0 2 ["full_name"; "notes"]
  = calculate_fuzzy_score same_length_ratio df_people 2 0 ["full_name"; "notes"]
  /\ calculate_fuzzy_score same_length_ratio df_people 0 7 ["full_name"]
     = calculate_fuzzy_score same_length_ratio df_people 7 0 ["full_name"].
Proof.
  split;
    apply (calculate_fuzzy_score_symmetric same_length_ratio df_people);
    exact same_length_ratio_sym.
Defined.

(** ** Further properties of the blocking key *)

Lemma length_take (n : nat) (s : string) : String.length (PyStr.take n s) <= n.
Proof.
  revert s. induction n as [| n IH]; intros [| c s]; simpl; try lia.
  specialize (IH s). lia.
Qed.

(** Only a missing or too short value is filed under the reserved key: the
    key of any other value has at most 3 characters, so a value such as
    ["unknown caller"] goes to its own block (["unk"]), never to the
    ["unknown"] one. *)
Theorem sentinel_block_only_for_missing_or_short (v : scalar) :
  (block_key_of v = "unknown" <->
   isna v = true \/ String.length (PyStr.lower (py_str v)) < 3)
  /\ (block_key_of v <> "unknown" -> String.length (block_key_of v) <= 3).
Proof.
  unfold block_key_of.
  destruct (isna v) eqn:Hna; cbn [orb].
  { split; [tauto | congruence]. }
  destruct (String.length (PyStr.lower (py_str v)) <? 3) eqn:Hlen.
  { apply Nat.ltb_lt in Hlen. split; [tauto | congruence]. }
  apply Nat.ltb_ge in Hlen.
  assert (Hk : forall w, String.length (PyStr.take 3 w) <= 3)
    by (intros w; apply length_take).
  destruct (PyStr.split (PyStr.lower (py_str v))) as [| w ws].
  - split; [| intros _; apply Hk]. split.
    + intros H. pose proof (Hk (PyStr.lower (py_str v))) as Hk'.
      rewrite H in Hk'. cbn [String.length] in Hk'. lia.
    + intros [H | H]; [discriminate | lia].
  - split; [| intros _; apply Hk]. split.
    + intros H. pose proof (Hk w) as Hk'. rewrite H in Hk'.
      cbn [String.length] in Hk'. lia.
    + intros [H | H]; [discriminate | lia].
Qed.

(** ** Further properties of the driver *)

(** The driver never reports the failure of its first attempt: when it
    raises, the exception is the one of the second read, and a first
    attempt that returns is returned as it is. *)
Theorem run_dynamic_dedup_raises_only_from_second_read
        (ratio : string -> string -> Q)
        (key_sort : list scalar -> list scalar) (file : Type)
        (parse_csv : file -> option nat -> result DataFrame)
        (to_csv : list Match -> file) (data_path : string) (w : World file) :
  (forall e w',
      run_dynamic_dedup ratio key_sort file parse_csv to_csv data_path w
      = (Raise e, w') ->
      read_csv file parse_csv w' data_path (Some 1000) = Raise e)
  /\ (forall df r w',
         read_csv file parse_csv w data_path None = Ok df ->
         universal_deduplication ratio key_sort file to_csv df w = (Ok r, w') ->
         run_dynamic_dedup ratio key_sort file parse_csv to_csv data_path w
         = (Ok r, w')).
Proof.
  split.
  - intros e w'. unfold run_dynamic_dedup.
    destruct (match read_csv file parse_csv w data_path None with
              | Ok df => universal_deduplication ratio key_sort file to_csv df w
              | Raise e0 => (Raise e0, w)
              end) as [[r | e0] w0]; [discriminate |].
    destruct (read_csv file parse_csv w0 data_path (Some 1000)) as [df |] eqn:E;
      cbn [bind]; [discriminate |].
    intros [= <- <-]. exact E.
  - intros df r w' Hread Hrun. unfold run_dynamic_dedup.
    now rewrite Hread, Hrun.
Qed.

Lemma sentinel_block_only_for_missing_or_short_witness :
  String.length (block_key_of (Str "unknown caller")) <= 3.
Proof.
  apply (proj2 (sentinel_block_only_for_missing_or_short (Str "unknown caller"))).
  vm_compute. discriminate.
Defined.

Lemma run_dynamic_dedup_raises_only_from_second_read_witness :
  exists r w',
    run_dynamic_dedup indel_ratio sort_keys DataFrame parse_frame keep_nothing
                      "data/raw/upload.csv"
                      (one_file "data/raw/upload.csv" df_apples)
    = (Ok r, w').
Proof.
  destruct (universal_deduplication indel_ratio sort_keys DataFrame keep_nothing
              df_apples (one_file "data/raw/upload.csv" df_apples))
    as [[r | e] w'] eqn:E.
  - exists r, w'.
    apply (proj2 (run_dynamic_dedup_raises_only_from_second_read
                    indel_ratio sort_keys DataFrame parse_frame keep_nothing
                    "data/raw/upload.csv"
                    (one_file "data/raw/upload.csv" df_apples))
             df_apples r w' eq_refl E).
  - vm_compute in E. discriminate.
Defined.

(** ** Record identifiers *)

(** A frame that brings a record_id column is used as it is; any other
    frame gets one appended after its own columns, holding one synthetic
    id per row, no two of them equal. *)
Theorem with_record_id_assigns_distinct_ids (df : DataFrame) :
  (has_column df "record_id" = true -> with_record_id df = df)
  /\ (has_column df "record_id" = false ->
      index (with_record_id df) = index df /\
      series (with_record_id df)
      = series df
        ++ [mkSeries "record_id" object_ (synthetic_ids (nrows df))] /\
      List.length (synthetic_ids (nrows df)) = nrows df /\
      NoDup (synthetic_ids (nrows df))).
Proof.
  split.
  - apply with_record_id_old.
  - intros Hno. unfold with_record_id, setitem. rewrite Hno. simpl.
    repeat split.
    + unfold synthetic_ids. now rewrite length_map, length_seq.
    + apply synthetic_ids_NoDup.
Qed.

Lemma with_record_id_assigns_distinct_ids_witness :
  series (with_record_id csv_empty_column)
  = series csv_empty_column
    ++ [mkSeries "record_id" object_
          [Str "REC_000000"; Str "REC_000001"; Str "REC_000002"]].
Proof.
  apply (proj2 (with_record_id_assigns_distinct_ids csv_empty_column) eq_refl).
Defined.

(** ** Further properties of the column classifier *)

Ltac perm_front :=
  simpl; rewrite ?map_app; simpl; rewrite <- ?app_assoc; simpl; symmetry;
  repeat first
    [ reflexivity
    | apply Permutation_cons_append
    | etransitivity; [apply Permutation_middle |]; apply Permutation_app_head ].

Lemma subseq_app {A : Type} (l1 l1' l2 l2' : list A) :
  subseq l1' l1 -> subseq l2' l2 -> subseq (l1' ++ l2') (l1 ++ l2).
Proof.
  intros H1 H2. induction H1 as [| x l1' l1 H IH | x l1' l1 H IH]; simpl.
  - exact H2.
  - apply subseq_skip. exact IH.
  - apply subseq_keep. exact IH.
Qed.

Lemma subseq_NoDup {A : Type} (l' l : list A) :
  subseq l' l -> NoDup l -> NoDup l'.
Proof.
  induction 1 as [| x l' l H IH | x l' l H IH]; intros Hnd.
  - constructor.
  - inversion Hnd; auto.
  - inversion Hnd as [| ? ? Hx Hnd']; subst. constructor; [| auto].
    intros Hin. apply Hx. eapply subseq_In; eauto.
Qed.

(** One step of the loop files the column in at most one list, and never
    the identifier. *)
Lemma classify_body_files_at_most_once (df : DataFrame) (ct ct' : col_types_acc)
      (col : string) :
  classify_body df ct col = Ok ct' ->
  exists l, Permutation (filed ct') (l ++ filed ct) /\
            subseq l (filter not_record_id [col]).
Proof.
  unfold classify_body, not_record_id. cbn [filter].
  destruct (String.eqb col "record_id"); cbn [negb].
  { intros [= <-]. exists []. split; [reflexivity | constructor]. }
  destruct (getitem df col) as [s |]; cbn [bind]; [| discriminate].
  destruct (py_div _ _) as [r |]; cbn [bind]; [| discriminate].
  assert (Hone : subseq [col] [col]) by apply subseq_refl.
  destruct (Qlt_bool (8 # 10) r || PyStr.any_in exact_keywords (PyStr.lower col)
            || is_numeric_dtype (dtype s)).
  { intros [= <-]. exists [col]. split; [unfold filed; perm_front | exact Hone]. }
  destruct (Qlt_bool (1 # 10) r && Qlt_bool r (8 # 10)
            && PyStr.any_in name_keywords (PyStr.lower col)).
  { intros [= <-]. exists [col]. split; [unfold filed; perm_front | exact Hone]. }
  destruct (Qlt_bool 10 (mean_len (sample_of s)) && Qlt_bool r (1 # 2)).
  { intros [= <-]. exists [col]. split; [unfold filed; perm_front | exact Hone]. }
  destruct (is_object_dtype (dtype s)).
  { intros [= <-]. exists [col]. split; [unfold filed; perm_front | exact Hone]. }
  destruct (is_numeric_dtype (dtype s)).
  { intros [= <-]. exists [col]. split; [unfold filed; perm_front | exact Hone]. }
  intros [= <-]. exists []. split; [reflexivity | apply subseq_nil_l].
Qed.

Lemma for_each_classify_at_most_once (df : DataFrame) (cols : list string)
      (ct ct' : col_types_acc) :
  for_each (classify_body df) cols ct = Ok ct' ->
  exists l, Permutation (filed ct') (l ++ filed ct) /\
            subseq l (filter not_record_id cols).
Proof.
  revert ct. induction cols as [| c cols IH]; intros ct.
  - intros [= <-]. exists []. split; [reflexivity | constructor].
  - cbn [for_each]. destruct (classify_body df ct c) as [ct1 |] eqn:E;
      cbn [bind]; [| discriminate].
    intros H. destruct (IH ct1 H) as [l2 [Hp2 Hs2]].
    destruct (classify_body_files_at_most_once df ct ct1 c E) as [l1 [Hp1 Hs1]].
    exists (l1 ++ l2). split.
    + rewrite Hp2, Hp1. rewrite !app_assoc. apply Permutation_app_tail.
      apply Permutation_app_comm.
    + change (c :: cols) with ([c] ++ cols). rewrite filter_app.
      now apply subseq_app.
Qed.

Lemma classify_columns_categories (df : DataFrame) (ct : ColTypes) :
  classify_columns df = Ok ct ->
  exists l, Permutation (categories ct) l /\ subseq l (eligible df).
Proof.
  unfold classify_columns.
  destruct (for_each (classify_body df) (columns df) empty_acc) as [acc |] eqn:E;
    cbn [bind]; [| discriminate].
  intros [= <-].
  destruct (for_each_classify_at_most_once df _ _ _ E) as [l [Hp Hs]].
  exists l. split; [| exact Hs].
  unfold filed in Hp. simpl in Hp. rewrite app_nil_r in Hp. rewrite <- Hp.
  unfold categories. simpl. repeat apply Permutation_app_head.
  apply Permutation_app_tail. apply Permutation_map. apply sorted_desc_perm.
Qed.

(** Whatever the dtypes, when classification returns, no column is in two
    of the five lists or twice in one, every listed name is a column of
    the frame, and the identifier column is in none. *)
Theorem classify_columns_lists_disjoint (df : DataFrame) (ct : ColTypes) :
  NoDup (columns df) ->
  classify_columns df = Ok ct ->
  NoDup (categories ct) /\
  incl (categories ct) (columns df) /\
  ~ In "record_id" (categories ct).
Proof.
  intros Hnd Hct.
  destruct (classify_columns_categories df ct Hct) as [l [Hp Hs]].
  assert (Hin : forall c, In c (categories ct) -> In c (eligible df)).
  { intros c Hc. eapply subseq_In; [exact Hs |].
    eapply Permutation_in; eauto. }
  split; [| split].
  - eapply Permutation_NoDup; [symmetry; exact Hp |].
    eapply subseq_NoDup; [exact Hs |]. unfold eligible. now apply NoDup_filter.
  - intros c Hc. apply Hin in Hc. unfold eligible in Hc.
    now apply filter_In in Hc.
  - intros Hc. apply Hin in Hc. unfold eligible in Hc.
    apply filter_In in Hc as [_ Hc]. discriminate.
Qed.

Lemma classify_columns_lists_disjoint_witness :
  NoDup (categories (mkColTypes ["amount"] [] [] ["city"] [])) /\
  incl (categories (mkColTypes ["amount"] [] [] ["city"] []))
       (columns df_orders) /\
  ~ In "record_id" (categories (mkColTypes ["amount"] [] [] ["city"] [])).
Proof.
  apply (classify_columns_lists_disjoint df_orders).
  - apply distinctb_NoDup. reflexivity.
  - reflexivity.
Defined.

(** On a column that holds a value the body of the loop does not raise. *)
Lemma classify_body_returns (df : DataFrame) (ct : col_types_acc)
      (col : string) (s : Series) :
  getitem df col = Ok s ->
  (col <> "record_id" -> sample_of s <> []) ->
  exists ct', classify_body df ct col = Ok ct'.
Proof.
  intros Hget Hs. unfold classify_body.
  destruct (String.eqb col "record_id") eqn:E; [eauto |].
  apply String.eqb_neq in E. specialize (Hs E).
  rewrite Hget. cbn [bind]. unfold py_div.
  destruct (List.length (sample_of s)) eqn:Hlen.
  { destruct (sample_of s); [contradiction | discriminate]. }
  cbn [bind].
  repeat match goal with
         | |- context [if ?b then _ else _] => destruct b
         end; eauto.
Qed.

Lemma for_each_classify_covers (df : DataFrame) (cols : list string)
      (ct : col_types_acc) :
  incl cols (columns df) ->
  (forall s, In s (series df) -> name s <> "record_id" -> sample_of s <> []) ->
  exists ct',
    for_each (classify_body df) cols ct = Ok ct' /\
    incl (filed ct) (filed ct') /\
    (forall s, In (name s) cols -> name s <> "record_id" ->
               getitem df (name s) = Ok s ->
               is_object_dtype (dtype s) || is_numeric_dtype (dtype s) = true ->
               In (name s) (filed ct')).
Proof.
  intros Hincl Hok. revert ct Hincl.
  induction cols as [| c cols IH]; intros ct Hincl.
  - exists ct. split; [reflexivity |]. split; [apply incl_refl |].
    intros s [].
  - assert (Hc : In c (columns df)) by (apply Hincl; now left).
    assert (Hincl' : incl cols (columns df))
      by (intros x Hx; apply Hincl; now right).
    destruct (getitem_columns _ _ Hc) as [s0 Hget].
    destruct (getitem_Ok _ _ _ Hget) as [Hin0 Hname0].
    destruct (classify_body_returns df ct c s0 Hget) as [ct1 Hstep].
    { intros Hne. apply Hok; [assumption | now rewrite Hname0]. }
    destruct (classify_body_files_at_most_once df ct ct1 c Hstep)
      as [l [Hperm _]].
    assert (Hgrow : incl (filed ct) (filed ct1)).
    { intros x Hx. eapply Permutation_in; [symmetry; exact Hperm |].
      apply in_or_app. now right. }
    destruct (IH ct1 Hincl') as (ct' & Hrest & Hgrow' & Hcov).
    exists ct'. cbn [for_each]. rewrite Hstep. cbn [bind].
    split; [exact Hrest |]. split.
    + intros x Hx. apply Hgrow', Hgrow, Hx.
    + intros s [Hs | Hs] Hne Hgs Hdt; [| now apply Hcov].
      apply Hgrow'. rewrite Hs in Hstep.
      destruct (classify_body_files df ct (name s) s Hne Hgs) as [ct2 [E Hp]].
      * apply Hok; [| assumption]. eapply getitem_Ok. exact Hgs.
      * exact Hdt.
      * rewrite Hstep in E. injection E as <-.
        eapply Permutation_in; [symmetry; exact Hp |]. now left.
Qed.

Lemma categories_filed (acc : col_types_acc) :
  Permutation
    (categories (mkColTypes (acc_exact acc) (acc_names acc) (acc_text acc)
                            (map fst (sorted_desc (acc_strings acc)))
                            (acc_numbers acc)))
    (filed acc).
Proof.
  unfold categories, filed. simpl. repeat apply Permutation_app_head.
  apply Permutation_app_tail. apply Permutation_map. apply sorted_desc_perm.
Qed.

(** When every column other than the identifier holds at least one value,
    classification returns; its lists hold columns of the frame other than
    the identifier, none of them twice, and every such column of textual
    (object) or numeric dtype is in one of the lists, whatever the dtypes
    of the other columns. *)
Theorem classify_columns_covers_valued_columns (df : DataFrame) :
  NoDup (columns df) ->
  (forall s, In s (series df) -> name s <> "record_id" ->
             exists v, In v (values s) /\ isna v = false) ->
  exists ct,
    classify_columns df = Ok ct /\
    NoDup (categories ct) /\
    incl (categories ct) (eligible df) /\
    (forall s, In s (series df) -> name s <> "record_id" ->
               is_object_dtype (dtype s) || is_numeric_dtype (dtype s) = true ->
               In (name s) (categories ct)).
Proof.
  intros Hnd Hval.
  destruct (for_each_classify_covers df (columns df) empty_acc (incl_refl _))
    as (acc & Hacc & _ & Hcov).
  { intros s Hs Hne. destruct (Hval s Hs Hne) as [v [Hv Hna]].
    now apply (sample_of_some_value s v). }
  assert (Hct : classify_columns df
                = Ok (mkColTypes (acc_exact acc) (acc_names acc) (acc_text acc)
                                 (map fst (sorted_desc (acc_strings acc)))
                                 (acc_numbers acc))).
  { unfold classify_columns. now rewrite Hacc. }
  destruct (classify_columns_categories df _ Hct) as [l [Hp Hs]].
  eexists. split; [exact Hct |]. split; [| split].
  - eapply Permutation_NoDup; [symmetry; exact Hp |].
    eapply subseq_NoDup; [exact Hs |]. unfold eligible. now apply NoDup_filter.
  - intros c Hc. eapply subseq_In; [exact Hs |].
    eapply Permutation_in; eauto.
  - intros s Hin Hne Hdt.
    eapply Permutation_in; [symmetry; apply categories_filed |].
    apply Hcov; auto.
    + unfold columns. now apply in_map.
    + now apply getitem_In.
Qed.

Lemma classify_columns_covers_valued_columns_witness :
  exists ct,
    classify_columns df_status_city = Ok ct /\
    NoDup (categories ct) /\
    incl (categories ct) ["status"; "city"] /\
    In "city" (categories ct).
Proof.
  destruct (classify_columns_covers_valued_columns df_status_city)
    as (ct & Hct & Hnd & Hincl & Hcov).
  - apply distinctb_NoDup. reflexivity.
  - intros s [<- | [<- | [<- | []]]] Hne; simpl in *;
      first [ now contradiction Hne
            | eexists; split; [left; reflexivity | reflexivity] ].
  - exists ct. split; [exact Hct |]. split; [exact Hnd |].
    split; [exact Hincl |].
    apply (Hcov (mkSeries "city" object_
                   [Str "Paris"; Str "Rome"; Str "Paris"; Str "Oslo"])).
    + simpl. auto.
    + simpl. discriminate.
    + reflexivity.
Defined.

Lemma classify_body_exact_grows (df : DataFrame) (ct ct' : col_types_acc)
      (col x : string) :
  classify_body df ct col = Ok ct' ->
  In x (acc_exact ct) -> In x (acc_exact ct').
Proof.
  unfold classify_body.
  destruct (String.eqb col "record_id"); [now intros [= <-] |].
  destruct (getitem df col) as [s |]; cbn [bind]; [| discriminate].
  destruct (py_div _ _) as [r |]; cbn [bind]; [| discriminate].
  repeat match goal with
         | |- context [if ?b then _ else _] => destruct b
         end;
    intros [= <-]; simpl; auto.
  intros H. apply in_or_app. now left.
Qed.

Lemma for_each_classify_exact_grows (df : DataFrame) (cols : list string)
      (ct ct' : col_types_acc) (x : string) :
  for_each (classify_body df) cols ct = Ok ct' ->
  In x (acc_exact ct) -> In x (acc_exact ct').
Proof.
  revert ct. induction cols as [| c cols IH]; intros ct.
  - now intros [= <-].
  - cbn [for_each]. destruct (classify_body df ct c) as [ct1 |] eqn:E;
      cbn [bind]; [| discriminate].
    intros H Hx. apply (IH ct1 H). eapply classify_body_exact_grows; eauto.
Qed.

Lemma py_div_uniqueness (s : Series) (r : Q) :
  py_div (nunique (sample_of s)) (List.length (sample_of s)) = Ok r ->
  r = uniqueness s.
Proof.
  unfold py_div, uniqueness.
  destruct (List.length (sample_of s)); [discriminate |]. now intros [= <-].
Qed.

(** The first rule of the classifier on the column it is looking at. *)
Lemma classify_body_exact_rule (df : DataFrame) (ct ct' : col_types_acc)
      (s : Series) :
  name s <> "record_id" ->
  getitem df (name s) = Ok s ->
  Qlt_bool (8 # 10) (uniqueness s)
  || PyStr.any_in exact_keywords (PyStr.lower (name s))
  || is_numeric_dtype (dtype s) = true ->
  classify_body df ct (name s) = Ok ct' ->
  In (name s) (acc_exact ct').
Proof.
  intros Hne Hget Hrule. unfold classify_body.
  destruct (String.eqb (name s) "record_id") eqn:E.
  { apply String.eqb_eq in E. contradiction. }
  rewrite Hget. cbn [bind].
  destruct (py_div _ _) as [r |] eqn:Hr; cbn [bind]; [| discriminate].
  apply py_div_uniqueness in Hr. subst r. rewrite Hrule.
  intros [= <-]. simpl. apply in_or_app. right. now left.
Qed.

Lemma for_each_classify_exact_rule (df : DataFrame) (cols : list string)
      (ct ct' : col_types_acc) (s : Series) :
  In (name s) cols ->
  name s <> "record_id" ->
  getitem df (name s) = Ok s ->
  Qlt_bool (8 # 10) (uniqueness s)
  || PyStr.any_in exact_keywords (PyStr.lower (name s))
  || is_numeric_dtype (dtype s) = true ->
  for_each (classify_body df) cols ct = Ok ct' ->
  In (name s) (acc_exact ct').
Proof.
  revert ct. induction cols as [| c cols IH]; intros ct Hin Hne Hget Hrule;
    [contradiction |].
  cbn [for_each]. destruct (classify_body df ct c) as [ct1 |] eqn:E;
    cbn [bind]; [| discriminate].
  intros H. destruct Hin as [-> | Hin].
  - eapply for_each_classify_exact_grows; [exact H |].
    eapply classify_body_exact_rule; eauto.
  - eapply IH; eauto.
Qed.

(** When classification returns, every column other than the identifier
    that is of numeric dtype, or whose name contains one of the key words
    (id, code, sku, order, claim, invoice, transaction), or more than 80%
    of whose values are distinct, is an exact-key column and nothing
    else. *)
Theorem classify_columns_exact_rule (df : DataFrame) (ct : ColTypes)
        (s : Series) :
  NoDup (columns df) ->
  classify_columns df = Ok ct ->
  In s (series df) ->
  name s <> "record_id" ->
  Qlt_bool (8 # 10) (uniqueness s)
  || PyStr.any_in exact_keywords (PyStr.lower (name s))
  || is_numeric_dtype (dtype s) = true ->
  In (name s) (exact ct) /\
  ~ In (name s) (names ct ++ text ct ++ strings ct ++ numbers ct).
Proof.
  intros Hnd Hct Hin Hne Hrule.
  assert (Hex : In (name s) (exact ct)).
  { revert Hct. unfold classify_columns.
    destruct (for_each (classify_body df) (columns df) empty_acc)
      as [acc |] eqn:E; cbn [bind]; [| discriminate].
    intros [= <-]. simpl.
    eapply (for_each_classify_exact_rule df (columns df) empty_acc acc s);
      eauto.
    - unfold columns. now apply in_map.
    - now apply getitem_In. }
  split; [exact Hex |].
  destruct (classify_columns_categories df ct Hct) as [l [Hp Hs]].
  assert (Hnd' : NoDup (categories ct)).
  { eapply Permutation_NoDup; [symmetry; exact Hp |].
    eapply subseq_NoDup; [exact Hs |]. unfold eligible. now apply NoDup_filter. }
  unfold categories in Hnd'. intros Hother.
  apply in_split in Hex as [l1 [l2 Hex]]. rewrite Hex in Hnd'.
  rewrite <- app_assoc in Hnd'. simpl in Hnd'.
  apply NoDup_remove_2 in Hnd'. apply Hnd'.
  apply in_or_app. right. apply in_or_app. now right.
Qed.

Lemma classify_columns_exact_rule_witness :
  In "price" (exact (mkColTypes ["price"] [] [] ["town"; "size"; "colour"] []))
  /\ ~ In "price"
       (names (mkColTypes ["price"] [] [] ["town"; "size"; "colour"] [])
        ++ text (mkColTypes ["price"] [] [] ["town"; "size"; "colour"] [])
        ++ strings (mkColTypes ["price"] [] [] ["town"; "size"; "colour"] [])
        ++ numbers (mkColTypes ["price"] [] [] ["town"; "size"; "colour"] [])).
Proof.
  apply (classify_columns_exact_rule df_shop
           (mkColTypes ["price"] [] [] ["town"; "size"; "colour"] [])
           (mkSeries "price" float64
              [Float "9.5"; Float "9.5"; Float "9.5"; Float "9.5"; Float "9.5"])).
  - apply distinctb_NoDup. reflexivity.
  - reflexivity.
  - simpl. auto.
  - discriminate.
  - reflexivity.
Defined.

Lemma Qlt_bool_false (x y : Q) : Qlt_bool x y = false -> (y <= x)%Q.
Proof.
  unfold Qlt_bool. intros H. apply negb_false_iff in H. now apply Qle_bool_iff.
Qed.

Lemma Qlt_bool_true (x y : Q) : Qlt_bool x y = true -> (x <= y)%Q.
Proof.
  unfold Qlt_bool. intros H. apply negb_true_iff in H.
  destruct (Qlt_le_dec x y) as [Hlt | Hle].
  - now apply Qlt_le_weak.
  - apply Qle_bool_iff in Hle. congruence.
Qed.

Lemma insert_desc_sorted (x : string * Q) (l : list (string * Q)) :
  StronglySorted (fun a b => (snd b <= snd a)%Q) l ->
  StronglySorted (fun a b => (snd b <= snd a)%Q) (insert_desc x l).
Proof.
  induction 1 as [| y l Hs IH Hall]; simpl.
  - constructor; constructor.
  - destruct (Qlt_bool (snd x) (snd y)) eqn:E.
    + constructor; [exact IH |].
      eapply Permutation_Forall; [symmetry; apply insert_desc_perm |].
      constructor; [now apply Qlt_bool_true | exact Hall].
    + apply Qlt_bool_false in E.
      constructor; [now constructor |].
      constructor; [exact E |].
      eapply Forall_impl; [| exact Hall]. intros a Ha. simpl in Ha.
      eapply Qle_trans; eauto.
Qed.

Lemma sorted_desc_sorted (l : list (string * Q)) :
  StronglySorted (fun a b => (snd b <= snd a)%Q) (sorted_desc l).
Proof.
  induction l as [| x l IH]; simpl; [constructor |].
  now apply insert_desc_sorted.
Qed.

(** The ratio kept next to a name in the ['strings'] entry is the
    uniqueness ratio of that column. *)
Lemma classify_body_strings_ratio (df : DataFrame) (ct ct' : col_types_acc)
      (col : string) :
  classify_body df ct col = Ok ct' ->
  Forall (fun p => snd p = uniqueness_of df (fst p)) (acc_strings ct) ->
  Forall (fun p => snd p = uniqueness_of df (fst p)) (acc_strings ct').
Proof.
  unfold classify_body.
  destruct (String.eqb col "record_id"); [now intros [= <-] |].
  destruct (getitem df col) as [s |] eqn:Hs; cbn [bind]; [| discriminate].
  destruct (py_div _ _) as [r |] eqn:Hr; cbn [bind]; [| discriminate].
  apply py_div_uniqueness in Hr.
  repeat match goal with
         | |- context [if ?b then _ else _] => destruct b
         end;
    intros [= <-]; simpl; auto.
  intros H. apply Forall_app. split; [exact H |].
  constructor; [| constructor]. simpl. unfold uniqueness_of. now rewrite Hs.
Qed.

Lemma for_each_classify_strings_ratio (df : DataFrame) (cols : list string)
      (ct ct' : col_types_acc) :
  for_each (classify_body df) cols ct = Ok ct' ->
  Forall (fun p => snd p = uniqueness_of df (fst p)) (acc_strings ct) ->
  Forall (fun p => snd p = uniqueness_of df (fst p)) (acc_strings ct').
Proof.
  revert ct. induction cols as [| c cols IH]; intros ct.
  - now intros [= <-].
  - cbn [for_each]. destruct (classify_body df ct c) as [ct1 |] eqn:E;
      cbn [bind]; [| discriminate].
    intros H Hf. apply (IH ct1 H). eapply classify_body_strings_ratio; eauto.
Qed.

Lemma StronglySorted_map_fst (df : DataFrame) (l : list (string * Q)) :
  Forall (fun p => snd p = uniqueness_of df (fst p)) l ->
  StronglySorted (fun a b => (snd b <= snd a)%Q) l ->
  StronglySorted (fun a b => (uniqueness_of df b <= uniqueness_of df a)%Q)
                 (map fst l).
Proof.
  intros Hf Hs. induction Hs as [| x l Hs IH Hall]; simpl; [constructor |].
  inversion Hf as [| ? ? Hx Hf']; subst. constructor; [auto |].
  apply Forall_map. rewrite Forall_forall in *.
  intros y Hy. rewrite <- Hx, <- (Hf' y Hy). now apply Hall.
Qed.

(** The generic-string columns come out ranked: no column of the
    ['strings'] list has a higher uniqueness ratio than a column before
    it, so the two columns the LOW tier takes are two of the most unique
    ones. *)
Theorem classify_columns_strings_ranked (df : DataFrame) (ct : ColTypes) :
  classify_columns df = Ok ct ->
  StronglySorted (fun a b => (uniqueness_of df b <= uniqueness_of df a)%Q)
                 (strings ct).
Proof.
  unfold classify_columns.
  destruct (for_each (classify_body df) (columns df) empty_acc) as [acc |] eqn:E;
    cbn [bind]; [| discriminate].
  intros [= <-]. simpl.
  apply StronglySorted_map_fst; [| apply sorted_desc_sorted].
  eapply Permutation_Forall; [symmetry; apply sorted_desc_perm |].
  eapply for_each_classify_strings_ratio; [exact E | constructor].
Qed.

Lemma classify_columns_strings_ranked_witness :
  classify_columns df_shop
  = Ok (mkColTypes ["price"] [] [] ["town"; "size"; "colour"] []) /\
  StronglySorted
    (fun a b => (uniqueness_of df_shop b <= uniqueness_of df_shop a)%Q)
    ["town"; "size"; "colour"].
Proof.
  split; [reflexivity |].
  apply (classify_columns_strings_ranked df_shop
           (mkColTypes ["price"] [] [] ["town"; "size"; "colour"] [])).
  reflexivity.
Defined.

(** ** Further properties of the exact matcher *)

(** A column the frame does not have, and a column in which no value is
    held by two records, add nothing to the matches: a column of distinct
    keys (and missing values) yields no pair. *)
Theorem exact_matcher_skips_unshared (key_sort : list scalar -> list scalar)
        (df : DataFrame) (col : string) (acc : list Match) :
  (forall l, Permutation (key_sort l) l) ->
  (has_column df col = false ->
   exact_col_matches key_sort df acc col = Ok acc)
  /\ (forall s rid,
         getitem df col = Ok s ->
         getitem df "record_id" = Ok rid ->
         (forall v, In v (values s) -> isna v = false ->
                    count_occ scalar_eq_dec (values s) v = 1) ->
         exact_col_matches key_sort df acc col = Ok acc).
Proof.
  intros Hperm. split.
  - intros Hno. unfold exact_col_matches. now rewrite Hno.
  - intros s rid Hs Hrid Hone.
    rewrite (exact_col_matches_spec key_sort Hperm df col s rid acc Hs Hrid).
    assert (Hnil : shared_values (values s) = []).
    { destruct (shared_values (values s)) as [| v l] eqn:E; [reflexivity |].
      assert (Hv : In v (shared_values (values s))) by (rewrite E; now left).
      apply shared_values_spec in Hv as [Hna Hc].
      rewrite (Hone v) in Hc; [lia | | exact Hna].
      apply (count_occ_In scalar_eq_dec). lia. }
    rewrite Hnil.
    assert (Hk : key_sort [] = []).
    { apply Permutation_nil. symmetry. apply Hperm. }
    rewrite Hk. simpl. now rewrite app_nil_r.
Qed.

Lemma exact_matcher_skips_unshared_witness :
  find_exact_matches sort_keys df_tickets ["ticket_code"; "absent"] = Ok [].
Proof.
  unfold find_exact_matches. cbn [for_each].
  rewrite (proj2 (exact_matcher_skips_unshared sort_keys df_tickets
                    "ticket_code" [] sort_keys_perm)
             (mkSeries "ticket_code" object_ [Str "T-1"; Str "T-2"; NaN])
             (mkSeries "record_id" object_
                [Str "REC_000000"; Str "REC_000001"; Str "REC_000002"])
             eq_refl eq_refl).
  - reflexivity.
  - intros v [<- | [<- | [<- | []]]] Hna; first [reflexivity | discriminate].
Defined.

(** ** What a fuzzy tier reports *)

Section FuzzyTier.

Variable ratio : string -> string -> Q.
Variable df : DataFrame.
Variable rid : Series.
Hypothesis df_wf : well_formed df.
Hypothesis df_rid : getitem df "record_id" = Ok rid.

Lemma pair_body_eq (cols : list string) (threshold : Q) (tier : Tier)
      (acc : list Match) (p : nat * nat) :
  fst p < nrows df -> snd p < nrows df ->
  pair_body ratio df cols threshold tier acc p
  = Ok (acc ++ if accepted ratio df cols threshold p
               then [match_of_pair ratio df (values rid) cols tier p]
               else []).
Proof.
  intros H1 H2. unfold pair_body, accepted, pair_score.
  rewrite (calculate_fuzzy_score_mean ratio df df_wf) by assumption.
  cbn [bind]. destruct (Qle_bool threshold _).
  - rewrite !(iloc_record_id df rid df_wf df_rid) by assumption.
    reflexivity.
  - now rewrite app_nil_r.
Qed.

Lemma for_each_pair_body_eq (cols : list string) (threshold : Q) (tier : Tier)
      (ps : list (nat * nat)) (acc : list Match) :
  (forall p, In p ps -> fst p < nrows df /\ snd p < nrows df) ->
  for_each (pair_body ratio df cols threshold tier) ps acc
  = Ok (acc ++ map (match_of_pair ratio df (values rid) cols tier)
                   (filter (accepted ratio df cols threshold) ps)).
Proof.
  revert acc. induction ps as [| p ps IH]; intros acc Hps.
  - simpl. now rewrite app_nil_r.
  - destruct (Hps p (or_introl eq_refl)) as [H1 H2].
    cbn [for_each]. rewrite (pair_body_eq cols threshold tier acc p H1 H2).
    cbn [bind]. rewrite IH by (intros q Hq; apply Hps; now right).
    cbn [filter]. destruct (accepted ratio df cols threshold p); simpl.
    + now rewrite <- app_assoc.
    + now rewrite app_nil_r.
Qed.

Lemma block_body_eq (cols : list string) (threshold : Q) (tier : Tier)
      (max_block_size : nat) (acc : list Match) (block : string * list nat) :
  subseq (snd block) (seq 0 (nrows df)) ->
  block_body ratio df cols threshold tier max_block_size acc block
  = Ok (acc ++ block_matches ratio df (values rid) cols threshold tier
                             max_block_size block).
Proof.
  intros Hsub. unfold block_body, block_matches. destruct (_ || _).
  - now rewrite app_nil_r.
  - rewrite index_pairs_pairs. apply for_each_pair_body_eq.
    intros [i j] Hp. destruct (in_pairs_elements _ _ _ Hp) as [Hi Hj].
    apply (subseq_In _ _ _ Hsub) in Hi. apply (subseq_In _ _ _ Hsub) in Hj.
    apply in_seq in Hi. apply in_seq in Hj. simpl. lia.
Qed.

Lemma for_each_block_body_eq (cols : list string) (threshold : Q) (tier : Tier)
      (max_block_size : nat) (blocks : Blocks) (acc : list Match) :
  (forall b, In b blocks -> subseq (snd b) (seq 0 (nrows df))) ->
  for_each (block_body ratio df cols threshold tier max_block_size) blocks acc
  = Ok (acc ++ flat_map (block_matches ratio df (values rid) cols threshold
                                       tier max_block_size) blocks).
Proof.
  revert acc. induction blocks as [| b blocks IH]; intros acc Hb.
  - simpl. now rewrite app_nil_r.
  - cbn [for_each]. rewrite block_body_eq by (apply Hb; now left).
    cbn [bind]. rewrite IH by (intros q Hq; apply Hb; now right).
    simpl. now rewrite <- app_assoc.
Qed.

Hypothesis df_range : range_index df.

Lemma block_indices_subseq (s : Series) (b : string * list nat) :
  List.length (values s) = nrows df ->
  In b (build_blocks (iterrows df s)) ->
  subseq (snd b) (seq 0 (nrows df)).
Proof.
  intros Hlen Hb. destruct b as [k indices]. cbn [snd].
  destruct (blocking_assigns_key_lists df s Hlen) as [_ Hix].
  rewrite (Hix k indices Hb). unfold labels_with_key.
  rewrite <- df_range.
  replace (index df) with (map fst (iterrows df s)).
  - apply subseq_map, subseq_filter.
  - unfold iterrows. apply combine_fst. now rewrite Hlen.
Qed.

(** The matches of a tier, block by block. *)
Lemma fuzzy_match_strategy_eq (s : Series) (block_col : string)
      (cols : list string) (threshold : Q) (tier : Tier) (max_block_size : nat) :
  getitem df block_col = Ok s ->
  fuzzy_match_strategy ratio df (block_col :: cols) threshold tier max_block_size
  = Ok (flat_map (block_matches ratio df (values rid) (block_col :: cols)
                                threshold tier max_block_size)
                 (build_blocks (iterrows df s))).
Proof.
  intros Hs. unfold fuzzy_match_strategy.
  rewrite (getitem_has_column _ _ _ Hs). cbn [negb]. rewrite Hs. cbn [bind].
  rewrite for_each_block_body_eq; [reflexivity |].
  intros b Hb. apply (block_indices_subseq s); [| exact Hb].
  destruct df_wf as [_ Hl]. rewrite Forall_forall in Hl.
  apply Hl. eapply getitem_Ok. exact Hs.
Qed.

End FuzzyTier.










(** ** Scores of the reported matches *)

Lemma fold_left_Qplus_bounds (l : list Q) (a : Q) :
  Forall (fun q => 0 <= q /\ q <= 100)%Q l ->
  (a <= fold_left Qplus l a /\
   fold_left Qplus l a <= a + 100 * inject_Z (Z.of_nat (List.length l)))%Q.
Proof.
  revert a. induction l as [| q l IH]; intros a Hl.
  - cbn [fold_left List.length]. change (inject_Z (Z.of_nat 0)) with 0%Q.
    split; lra.
  - inversion Hl as [| ? ? [Hq0 Hq1] Hl']; subst.
    destruct (IH (a + q)%Q Hl') as [H1 H2].
    cbn [fold_left List.length]. rewrite Nat2Z.inj_succ, <- Z.add_1_r.
    rewrite inject_Z_plus. change (inject_Z 1) with 1%Q.
    split; lra.
Qed.

Lemma mean_bounds (l : list Q) :
  Forall (fun q => 0 <= q /\ q <= 100)%Q l ->
  (0 <= mean l /\ mean l <= 100)%Q.
Proof.
  intros Hl. destruct l as [| q l]; [simpl; split; lra |].
  unfold mean. destruct (fold_left_Qplus_bounds (q :: l) 0 Hl) as [H1 H2].
  set (n := inject_Z (Z.of_nat (List.length (q :: l)))) in *.
  assert (Hn : (0 < n)%Q).
  { unfold n. change 0%Q with (inject_Z 0). rewrite <- Zlt_Qlt.
    simpl. lia. }
  split.
  - apply Qle_shift_div_l; [exact Hn | lra].
  - apply Qle_shift_div_r; [exact Hn | lra].
Qed.

Lemma pair_score_bounds (ratio : string -> string -> Q) (df : DataFrame)
      (cols : list string) (p : nat * nat) :
  (forall a b, 0 <= ratio a b /\ ratio a b <= 100)%Q ->
  (0 <= pair_score ratio df cols p /\ pair_score ratio df cols p <= 100)%Q.
Proof.
  intros Hr. unfold pair_score. apply mean_bounds.
  unfold contributing_scores. apply Forall_map. apply Forall_forall.
  intros x _. apply Hr.
Qed.


(** *** The similarity used to run the model lies between 0 and 100 *)

Lemma lcs_row_bounded_from (c : ascii) (t : string) (prev : list nat)
      (k diag left : nat) :
  bounded_from k prev -> diag <= k -> left <= k ->
  bounded_from k (lcs_row c t prev diag left).
Proof.
  revert prev k diag left.
  induction t as [| d t IH]; intros [| up prev] k diag left Hp Hd Hl;
    simpl; auto.
  destruct Hp as [Hup Hp]. split.
  - destruct (Ascii.eqb c d); lia.
  - apply IH; [exact Hp | lia |]. destruct (Ascii.eqb c d); lia.
Qed.

Lemma lcs_row_le (c : ascii) (t : string) (prev : list nat) (n diag left : nat) :
  Forall (fun x => x <= n) prev -> diag <= n -> left <= S n ->
  Forall (fun x => x <= S n) (lcs_row c t prev diag left).
Proof.
  revert prev diag left.
  induction t as [| d t IH]; intros [| up prev] diag left Hp Hd Hl;
    simpl; auto.
  inversion Hp as [| ? ? Hup Hp']; subst. constructor.
  - destruct (Ascii.eqb c d); lia.
  - apply IH; [exact Hp' | lia |]. destruct (Ascii.eqb c d); lia.
Qed.

Lemma lcs_row_length (c : ascii) (t : string) (prev : list nat) (diag left : nat) :
  List.length (lcs_row c t prev diag left) <= List.length prev.
Proof.
  revert prev diag left.
  induction t as [| d t IH]; intros [| up prev] diag left; simpl; try lia.
  specialize (IH prev up (if Ascii.eqb c d then S diag else Nat.max up left)).
  lia.
Qed.

Lemma lcs_rows_bounds (s t : string) (prev : list nat) (n : nat) :
  bounded_from 0 prev ->
  Forall (fun x => x <= n) prev ->
  bounded_from 0 (lcs_rows s t prev) /\
  Forall (fun x => x <= n + String.length s) (lcs_rows s t prev) /\
  List.length (lcs_rows s t prev) <= List.length prev.
Proof.
  revert prev n. induction s as [| c s IH]; intros prev n Hb Hn; simpl.
  - rewrite Nat.add_0_r. auto.
  - destruct (IH (lcs_row c t prev 0 0) (S n)) as (H1 & H2 & H3).
    + apply lcs_row_bounded_from; auto.
    + apply lcs_row_le; auto; lia.
    + split; [exact H1 |]. split.
      * eapply Forall_impl; [| exact H2]. intros x Hx. simpl in Hx. lia.
      * pose proof (lcs_row_length c t prev 0 0). lia.
Qed.

Lemma last_bounded_from (row : list nat) (k : nat) :
  bounded_from k row -> last row 0 <= k + List.length row.
Proof.
  revert k. induction row as [| x row IH]; intros k; [simpl; lia |].
  intros [Hx Hrow]. destruct row as [| y row]; [simpl; lia |].
  specialize (IH (S k) Hrow).
  change (last (x :: y :: row) 0) with (last (y :: row) 0).
  cbn [List.length] in *. lia.
Qed.

Lemma last_le (row : list nat) (n : nat) :
  Forall (fun x => x <= n) row -> last row 0 <= n.
Proof.
  induction 1 as [| x row Hx Hrow IH]; simpl; [lia |].
  destruct row; [exact Hx | exact IH].
Qed.

Lemma bounded_from_zeros (n k : nat) : bounded_from k (repeat 0 n).
Proof.
  revert k. induction n as [| n IH]; intros k; simpl; [exact I |].
  split; [lia | apply IH].
Qed.

Lemma lcs_le (s t : string) :
  lcs s t <= String.length s /\ lcs s t <= String.length t.
Proof.
  unfold lcs.
  destruct (lcs_rows_bounds s t (repeat 0 (String.length t)) 0)
    as (H1 & H2 & H3).
  - apply bounded_from_zeros.
  - apply Forall_forall. intros x Hx. apply repeat_spec in Hx. lia.
  - split.
    + apply last_le in H2. lia.
    + apply last_bounded_from in H1. rewrite repeat_length in H3. lia.
Qed.

Lemma indel_ratio_range (s t : string) :
  (0 <= indel_ratio s t)%Q /\ (indel_ratio s t <= 100)%Q.
Proof.
  unfold indel_ratio. destruct (lcs_le s t) as [Hs Ht].
  destruct (String.length s + String.length t) as [| n] eqn:E.
  - split; [discriminate | apply Qle_refl].
  - unfold Qle. cbn [Qnum Qden].
    rewrite <- Pos.of_nat_succ, Zpos_P_of_succ_nat. split; lia.
Qed.

(** *** Every reported score lies in the band of its tier *)

Lemma for_each_preserves {A S : Type} (P : S -> Prop) (body : S -> A -> result S)
      (xs : list A) (acc acc' : S) :
  (forall a x a', P a -> body a x = Ok a' -> P a') ->
  P acc -> for_each body xs acc = Ok acc' -> P acc'.
Proof.
  intros Hbody. revert acc. induction xs as [| x xs IH]; intros acc Hacc; simpl.
  - now intros [= <-].
  - destruct (body acc x) as [a1 |] eqn:E; cbn [bind]; [| discriminate].
    apply IH. eapply Hbody; eauto.
Qed.

Lemma find_exact_matches_band (key_sort : list scalar -> list scalar)
      (df : DataFrame) (cols : list string) (ms : list Match) :
  find_exact_matches key_sort df cols = Ok ms ->
  Forall (fun m => match_tier m = EXACT /\ match_score m = 1%Q) ms.
Proof.
  unfold find_exact_matches.
  apply (for_each_preserves
           (Forall (fun m => match_tier m = EXACT /\ match_score m = 1%Q)));
    [| constructor].
  intros acc col acc' Hacc. unfold exact_col_matches.
  destruct (has_column df col); [| now intros [= <-]].
  destruct (getitem df col) as [s |]; cbn [bind]; [| discriminate].
  destruct (getitem _ col) as [s' |]; cbn [bind]; [| discriminate].
  apply (for_each_preserves
           (Forall (fun m => match_tier m = EXACT /\ match_score m = 1%Q)));
    [| exact Hacc].
  intros a kg a' Ha. unfold exact_group_matches.
  destruct (getitem (snd kg) "record_id") as [rid |]; cbn [bind];
    [| discriminate].
  intros [= <-]. apply Forall_app. split; [exact Ha |].
  apply Forall_forall. intros m Hm. apply in_map_iff in Hm as [p [<- _]].
  split; reflexivity.
Qed.

Section TierBand.

Variable ratio : string -> string -> Q.
Variable df : DataFrame.
Variable rid : Series.
Hypothesis ratio_range : forall a b, (0 <= ratio a b)%Q /\ (ratio a b <= 100)%Q.
Hypothesis df_wf : well_formed df.
Hypothesis df_range : range_index df.
Hypothesis df_rid : getitem df "record_id" = Ok rid.

Lemma fuzzy_match_strategy_band (cols : list string) (threshold : Q)
      (tier : Tier) (max_block_size : nat) (ms : list Match) :
  fuzzy_match_strategy ratio df cols threshold tier max_block_size = Ok ms ->
  Forall (fun m => match_tier m = tier /\
                   (threshold / 100 <= match_score m)%Q /\
                   (match_score m <= 1)%Q) ms.
Proof.
  destruct cols as [| block_col cols]; [now intros [= <-] |].
  destruct (has_column df block_col) eqn:Hcol.
  2: { unfold fuzzy_match_strategy. rewrite Hcol. now intros [= <-]. }
  apply has_column_In in Hcol. destruct (getitem_columns _ _ Hcol) as [s Hs].
  rewrite (fuzzy_match_strategy_eq ratio df rid df_wf df_rid df_range s
             block_col cols threshold tier max_block_size Hs).
  intros [= <-]. apply Forall_forall. intros m Hm.
  apply in_flat_map in Hm as [b [_ Hm]]. unfold block_matches in Hm.
  destruct (_ || _); [contradiction |].
  apply in_map_iff in Hm as [p [<- Hp]]. apply filter_In in Hp as [_ Hacc].
  unfold accepted in Hacc. apply Qle_bool_iff in Hacc.
  destruct (pair_score_bounds ratio df (block_col :: cols) p ratio_range)
    as [_ Hhi].
  unfold match_of_pair. cbn [match_tier match_score].
  split; [reflexivity |]. split.
  - apply Qmult_le_compat_r; [exact Hacc | discriminate].
  - apply Qle_shift_div_r; [reflexivity |]. now rewrite Qmult_1_l.
Qed.

End TierBand.

(** Whatever the four strategies report carries a score in the band of its
    tier, provided the similarity function stays between 0 and 100: 1 for
    EXACT, at least 0.95 for HIGH, 0.90 for MEDIUM and 0.85 for LOW, and
    never more than 1; the same holds of what deduplication keeps. *)
Theorem all_matches_scores_within_tier_band (ratio : string -> string -> Q)
        (key_sort : list scalar -> list scalar) (df : DataFrame) (rid : Series)
        (ct : ColTypes) (ms : list Match) :
  (forall a b, (0 <= ratio a b)%Q /\ (ratio a b <= 100)%Q) ->
  well_formed df ->
  range_index df ->
  getitem df "record_id" = Ok rid ->
  all_matches ratio key_sort df ct = Ok ms ->
  Forall within_tier_band ms /\ Forall within_tier_band (drop_duplicates ms).
Proof.
  intros Hratio Hwf Hrange Hrid Hall.
  assert (Hms : Forall within_tier_band ms).
  { revert Hall. unfold all_matches.
    destruct (find_exact_matches key_sort df (exact ct)) as [e |] eqn:He;
      cbn [bind]; [| discriminate].
    assert (Hfz : forall cols threshold tier (guard : bool) l,
               (if guard
                then fuzzy_match_strategy ratio df cols threshold tier 100
                else Ok []) = Ok l ->
               Forall (fun m => match_tier m = tier /\
                                (threshold / 100 <= match_score m)%Q /\
                                (match_score m <= 1)%Q) l).
    { intros cols threshold tier [|] l.
      - now apply (fuzzy_match_strategy_band ratio df rid).
      - now intros [= <-]. }
    destruct (if nonempty (names ct) then _ else _) as [h |] eqn:Hh;
      cbn [bind]; [| discriminate].
    destruct (if nonempty (text ct) then _ else _) as [md |] eqn:Hmd;
      cbn [bind]; [| discriminate].
    destruct (if nonempty (strings ct) then _ else _) as [lo |] eqn:Hlo;
      cbn [bind]; [| discriminate].
    intros [= <-].
    apply find_exact_matches_band in He.
    apply Hfz in Hh. apply Hfz in Hmd. apply Hfz in Hlo.
    repeat (apply Forall_app; split).
    - eapply Forall_impl; [| exact He]. intros m [Ht Hs].
      unfold within_tier_band. rewrite Ht, Hs. split; discriminate.
    - eapply Forall_impl; [| exact Hh]. intros m (Ht & H1 & H2).
      unfold within_tier_band. rewrite Ht. split; assumption.
    - eapply Forall_impl; [| exact Hmd]. intros m (Ht & H1 & H2).
      unfold within_tier_band. rewrite Ht. split; assumption.
    - eapply Forall_impl; [| exact Hlo]. intros m (Ht & H1 & H2).
      unfold within_tier_band. rewrite Ht. split; assumption. }
  split; [exact Hms |].
  apply Forall_forall. intros m Hm. apply drop_duplicates_from_In in Hm as [Hm _].
  rewrite Forall_forall in Hms. now apply Hms.
Qed.

Lemma all_matches_scores_within_tier_band_witness :
  all_matches indel_ratio sort_keys df_apples
              (mkColTypes ["order_id"] [] [] ["remark"] [])
  = Ok [ mkMatch (Str "REC_000000") (Str "REC_000001") 1 EXACT;
         mkMatch (Str "REC_000000") (Str "REC_000001") (2800 # 3000) LOW;
         mkMatch (Str "REC_000001") (Str "REC_000002") (2800 # 3000) LOW ]
  /\ Forall within_tier_band
            [ mkMatch (Str "REC_000000") (Str "REC_000001") 1 EXACT;
              mkMatch (Str "REC_000000") (Str "REC_000001") (2800 # 3000) LOW;
              mkMatch (Str "REC_000001") (Str "REC_000002") (2800 # 3000) LOW ].
Proof.
  assert (Hall : all_matches indel_ratio sort_keys df_apples
                   (mkColTypes ["order_id"] [] [] ["remark"] [])
                 = Ok [ mkMatch (Str "REC_000000") (Str "REC_000001") 1 EXACT;
                        mkMatch (Str "REC_000000") (Str "REC_000001")
                                (2800 # 3000) LOW;
                        mkMatch (Str "REC_000001") (Str "REC_000002")
                                (2800 # 3000) LOW ])
    by (vm_compute; reflexivity).
  split; [exact Hall |].
  refine (proj1 (all_matches_scores_within_tier_band indel_ratio sort_keys
                   df_apples
                   (mkSeries "record_id" object_
                      [Str "REC_000000"; Str "REC_000001"; Str "REC_000002";
                       Str "REC_000003"; Str "REC_000004"])
                   (mkColTypes ["order_id"] [] [] ["remark"] []) _
                   indel_ratio_range _ eq_refl eq_refl Hall)).
  apply well_formedb_spec. reflexivity.
Defined.


(** ** The summary of a run *)

Lemma count_tier_total (ms : list Match) :
  count_tier EXACT ms + count_tier HIGH ms + count_tier MEDIUM ms
  + count_tier LOW ms = List.length ms.
Proof.
  unfold count_tier. induction ms as [| m ms IH]; [reflexivity |].
  cbn [filter]. destruct (match_tier m); cbn [tier_eqb List.length] in *; lia.
Qed.

Lemma py_div_value (a b : nat) (q : Q) :
  py_div a b = Ok q -> 0 < b /\ q = Z.of_nat a # Pos.of_nat b.
Proof.
  unfold py_div. destruct b; [discriminate |]. intros [= <-]. split; [lia | reflexivity].
Qed.

Lemma rate_times_100 (a b : nat) :
  0 < b ->
  ((Z.of_nat (a * 2) # Pos.of_nat b) * 100 == Z.of_nat (200 * a) # Pos.of_nat b)%Q.
Proof.
  intros Hb. unfold Qeq, Qmult. cbn [Qnum Qden]. rewrite Pos.mul_1_r.
  rewrite !Nat2Z.inj_mul. simpl (Z.of_nat 2). simpl (Z.of_nat 200). lia.
Qed.

Lemma Qle_100_iff (a b : nat) :
  0 < b ->
  ((Z.of_nat (200 * a) # Pos.of_nat b) < 100)%Q <-> 2 * a < b.
Proof.
  intros Hb. unfold Qlt. cbn [Qnum Qden].
  destruct b as [| b]; [lia |].
  rewrite <- Pos.of_nat_succ, Zpos_P_of_succ_nat. lia.
Qed.

(** When [universal_deduplication] returns a summary, the summary agrees
    with the table the run has persisted: [duplicate_pairs] is the number
    of its rows and the sum of the four tier counts, [input_records] is the
    number of rows of the input, which is not empty, and the detection
    rate is [200 * pairs / records] capped at 100; the classification is
    returned with it, and the predictions file is the only file written. *)
Theorem universal_deduplication_summary_consistent
        (ratio : string -> string -> Q) (key_sort : list scalar -> list scalar)
        (file : Type) (to_csv : list Match -> file) (df0 : DataFrame)
        (w w' : World file) (r : Summary) :
  universal_deduplication ratio key_sort file to_csv df0 w = (Ok r, w') ->
  0 < nrows df0 /\
  input_records r = nrows df0 /\
  n_EXACT (tiers r) + n_HIGH (tiers r) + n_MEDIUM (tiers r) + n_LOW (tiers r)
  = duplicate_pairs r /\
  (2 * duplicate_pairs r < nrows df0 ->
   (detection_rate r
    == Z.of_nat (200 * duplicate_pairs r) # Pos.of_nat (nrows df0))%Q) /\
  (nrows df0 <= 2 * duplicate_pairs r -> (detection_rate r == 100)%Q) /\
  (exists ct, col_types r = Some ct /\
              classify_columns (with_record_id df0) = Ok ct) /\
  (exists final,
      List.length final = duplicate_pairs r /\
      w' = write_file file w predictions_path (to_csv final)) /\
  (forall path, path <> predictions_path -> w' path = w path).
Proof.
  unfold universal_deduplication.
  destruct (classify_columns (with_record_id df0)) as [ct |] eqn:Hct;
    cbn [bind]; [| intros H; discriminate H].
  destruct (all_matches ratio key_sort (with_record_id df0) ct) as [ms |];
    cbn [bind]; [| intros H; discriminate H].
  rewrite nrows_with_record_id.
  set (final := drop_duplicates ms).
  destruct (py_div (List.length final * 2) (nrows df0)) as [rate |] eqn:Hrate;
    cbn [bind]; [| intros H; discriminate H].
  apply py_div_value in Hrate as [Hpos ->].
  intros [= <- <-]. cbn [input_records tiers duplicate_pairs detection_rate
                         col_types n_EXACT n_HIGH n_MEDIUM n_LOW].
  split; [exact Hpos |]. split; [reflexivity |].
  split; [apply count_tier_total |].
  pose proof (rate_times_100 (List.length final) (nrows df0) Hpos) as Hq.
  pose proof (Qle_100_iff (List.length final) (nrows df0) Hpos) as Hlt.
  split; [| split; [| split; [| split]]].
  - intros Hsmall. unfold py_min.
    destruct (Qlt_bool _ 100) eqn:E; [exact Hq |].
    apply Qlt_bool_false in E. rewrite Hq in E.
    apply Hlt in Hsmall. exfalso. eapply Qlt_not_le; eauto.
  - intros Hlarge. unfold py_min.
    destruct (Qlt_bool _ 100) eqn:E; [| reflexivity].
    unfold Qlt_bool in E. apply negb_true_iff in E.
    destruct (Qlt_le_dec ((Z.of_nat (List.length final * 2) # Pos.of_nat (nrows df0)) * 100) 100)
      as [Hlt' | Hle'].
    + rewrite Hq in Hlt'. apply Hlt in Hlt'. lia.
    + apply Qle_bool_iff in Hle'. congruence.
  - exists ct. split; reflexivity.
  - exists final. split; reflexivity.
  - intros path Hpath. unfold write_file.
    apply String.eqb_neq in Hpath. now rewrite Hpath.
Qed.

Lemma universal_deduplication_summary_consistent_witness :
  exists r w',
    universal_deduplication indel_ratio sort_keys (list Match) keep_matches
                            csv_apples no_match_files = (Ok r, w') /\
    duplicate_pairs r = 2 /\ input_records r = 5 /\
    tiers r = mkTiers 1 0 0 1 /\
    (detection_rate r == 80)%Q /\
    w' "data/raw/customers.csv" = None.
Proof.
  destruct (universal_deduplication indel_ratio sort_keys (list Match)
              keep_matches csv_apples no_match_files) as [[r | e] w'] eqn:Hrun.
  - destruct (universal_deduplication_summary_consistent indel_ratio sort_keys
                (list Match) keep_matches csv_apples no_match_files w' r Hrun)
      as (_ & Hin & _ & Hrate & _ & _ & _ & Hframe).
    exists r, w'. split; [reflexivity |].
    pose proof (f_equal fst Hrun) as Hr. cbn [fst] in Hr.
    vm_compute in Hr. injection Hr as <-.
    split; [reflexivity |]. split; [reflexivity |]. split; [reflexivity |].
    split; [reflexivity |].
    rewrite (Hframe "data/raw/customers.csv"); [reflexivity | discriminate].
  - apply (f_equal fst) in Hrun. vm_compute in Hrun. discriminate Hrun.
Defined.


(** ** Accuracy evaluation *)

Lemma sorted_pair_sym (a b : string) :
  Evaluation.sorted_pair a b = Evaluation.sorted_pair b a.
Proof.
  unfold Evaluation.sorted_pair, String.ltb.
  rewrite (String.compare_antisym a b).
  destruct (String.compare b a) eqn:E; simpl; try reflexivity.
  apply String.compare_eq_iff in E. now subst.
Qed.

Lemma set_add_present {A : Type} (dec : forall x y : A, {x = y} + {x <> y})
      (a : A) (l : list A) :
  In a l -> ListSet.set_add dec a l = l.
Proof.
  induction l as [| x l IH]; simpl; [contradiction |].
  destruct (dec a x) as [-> | Hne]; [reflexivity |].
  intros [-> | H]; [contradiction | now rewrite IH].
Qed.

Lemma fold_prediction_body_NoDup (rows : list Evaluation.PredictionRow)
      (acc : list (string * string)) :
  NoDup acc -> NoDup (fold_left Evaluation.prediction_body rows acc).
Proof.
  revert acc. induction rows as [| row rows IH]; intros acc Hacc; simpl;
    [exact Hacc |].
  apply IH. now apply ListSet.set_add_nodup.
Qed.

Lemma fold_prediction_body_In (rows : list Evaluation.PredictionRow)
      (acc : list (string * string)) (p : string * string) :
  In p (fold_left Evaluation.prediction_body rows acc) <->
  In p acc \/
  exists row, In row rows /\
              p = Evaluation.sorted_pair (Evaluation.record_id_l row)
                                         (Evaluation.record_id_r row).
Proof.
  revert acc. induction rows as [| row rows IH]; intros acc; simpl.
  - split; [auto | intros [H | [row [[] _]]]; exact H].
  - rewrite IH. unfold Evaluation.prediction_body.
    rewrite ListSet.set_add_iff. split.
    + intros [[-> | H] | [r [Hr Hp]]]; eauto.
    + intros [H | [r [[<- | Hr] Hp]]]; eauto.
Qed.

Lemma fold_prediction_body_swap (rows : list Evaluation.PredictionRow)
      (acc : list (string * string)) :
  fold_left Evaluation.prediction_body (map Evaluation.swap rows) acc
  = fold_left Evaluation.prediction_body rows acc.
Proof.
  revert acc. induction rows as [| row rows IH]; intros acc; simpl;
    [reflexivity |].
  rewrite IH. f_equal. unfold Evaluation.prediction_body, Evaluation.swap.
  simpl. now rewrite sorted_pair_sym.
Qed.

Lemma fold_prediction_body_again (rows : list Evaluation.PredictionRow)
      (acc : list (string * string)) :
  (forall row, In row rows ->
               In (Evaluation.sorted_pair (Evaluation.record_id_l row)
                                          (Evaluation.record_id_r row)) acc) ->
  fold_left Evaluation.prediction_body rows acc = acc.
Proof.
  induction rows as [| row rows IH]; intros Hin; simpl; [reflexivity |].
  unfold Evaluation.prediction_body at 2.
  rewrite set_add_present by (apply Hin; now left).
  apply IH. intros r Hr. apply Hin. now right.
Qed.

(** The evaluator identifies a pair whatever the order of its two
    identifiers: exchanging [record_id_l] and [record_id_r] in every
    prediction changes no metric, and predictions that repeat pairs in the
    other order count them once. *)
Theorem evaluation_ignores_pair_order
        (df_pred : list Evaluation.PredictionRow)
        (df_truth : list Evaluation.TruthRow) :
  Evaluation.evaluate_deduplication_accuracy (map Evaluation.swap df_pred)
                                             df_truth
  = Evaluation.evaluate_deduplication_accuracy df_pred df_truth /\
  Evaluation.evaluate_deduplication_accuracy
    (df_pred ++ map Evaluation.swap df_pred) df_truth
  = Evaluation.evaluate_deduplication_accuracy df_pred df_truth.
Proof.
  unfold Evaluation.evaluate_deduplication_accuracy. split.
  - now rewrite fold_prediction_body_swap.
  - rewrite fold_left_app, fold_prediction_body_swap.
    rewrite (fold_prediction_body_again df_pred); [reflexivity |].
    intros row Hrow. apply fold_prediction_body_In. right. eauto.
Qed.

Lemma for_rows_truth_body_NoDup (rows : list Evaluation.TruthRow)
      (acc out : list (string * string)) :
  NoDup acc ->
  Evaluation.for_rows Evaluation.truth_body rows acc = Some out -> NoDup out.
Proof.
  revert acc. induction rows as [| row rows IH]; intros acc Hacc; simpl.
  - now intros [= <-].
  - unfold Evaluation.truth_body at 1.
    destruct (Evaluation.original_id row) as [orig_id | |];
      [| discriminate | now apply IH].
    destruct (truthy orig_id); apply IH; [| exact Hacc].
    now apply ListSet.set_add_nodup.
Qed.

Lemma set_inter_diff_length {A : Type}
      (dec : forall x y : A, {x = y} + {x <> y}) (s t : list A) :
  NoDup s -> NoDup t ->
  List.length (ListSet.set_inter dec t s)
  + List.length (ListSet.set_diff dec s t) = List.length s.
Proof.
  intros Hs Ht. rewrite <- length_app. apply Permutation_length.
  apply NoDup_Permutation.
  - apply NoDup_app.
    + now apply ListSet.set_inter_nodup.
    + now apply ListSet.set_diff_nodup.
    + intros a Ha Hd. apply ListSet.set_inter_iff in Ha as [Ha _].
      apply ListSet.set_diff_iff in Hd as [_ Hd]. contradiction.
  - exact Hs.
  - intros a. rewrite in_app_iff, ListSet.set_inter_iff, ListSet.set_diff_iff.
    split.
    + intros [[_ H] | [H _]]; exact H.
    + intros H. destruct (in_dec dec a t); auto.
Qed.

Lemma set_inter_length_comm {A : Type}
      (dec : forall x y : A, {x = y} + {x <> y}) (s t : list A) :
  NoDup s -> NoDup t ->
  List.length (ListSet.set_inter dec s t)
  = List.length (ListSet.set_inter dec t s).
Proof.
  intros Hs Ht. apply Permutation_length. apply NoDup_Permutation.
  - now apply ListSet.set_inter_nodup.
  - now apply ListSet.set_inter_nodup.
  - intros a. rewrite !ListSet.set_inter_iff. tauto.
Qed.

Lemma share_range (a b : nat) :
  a <= b -> (0 <= Evaluation.share a b)%Q /\ (Evaluation.share a b <= 1)%Q.
Proof.
  intros Hab. unfold Evaluation.share.
  destruct (0 <? b) eqn:E; [| split; discriminate].
  apply Nat.ltb_lt in E.
  assert (Hb : (0 < inject_Z (Z.of_nat b))%Q).
  { change 0%Q with (inject_Z 0). rewrite <- Zlt_Qlt. lia. }
  split.
  - apply Qle_shift_div_l; [exact Hb |]. rewrite Qmult_0_l.
    change 0%Q with (inject_Z 0). rewrite <- Zle_Qle. lia.
  - apply Qle_shift_div_r; [exact Hb |]. rewrite Qmult_1_l.
    rewrite <- Zle_Qle. lia.
Qed.

(** When the evaluator returns, its counts add up: the true positives and
    the false positives are the predicted pairs, the true positives and
    the false negatives are the true pairs; precision and recall are the
    shares of true positives among them, each between 0 and 1, and 0 when
    the respective set is empty. *)
Theorem evaluation_counts_add_up
        (df_pred : list Evaluation.PredictionRow)
        (df_truth : list Evaluation.TruthRow) (m : Evaluation.Metrics) :
  Evaluation.evaluate_deduplication_accuracy df_pred df_truth = Some m ->
  Evaluation.true_positives m + Evaluation.false_positives m
  = Evaluation.predicted_duplicates m /\
  Evaluation.true_positives m + Evaluation.false_negatives m
  = Evaluation.true_duplicates m /\
  Evaluation.precision m
  = Evaluation.share (Evaluation.true_positives m)
                     (Evaluation.predicted_duplicates m) /\
  Evaluation.recall m
  = Evaluation.share (Evaluation.true_positives m)
                     (Evaluation.true_duplicates m) /\
  (0 <= Evaluation.precision m)%Q /\ (Evaluation.precision m <= 1)%Q /\
  (0 <= Evaluation.recall m)%Q /\ (Evaluation.recall m <= 1)%Q.
Proof.
  unfold Evaluation.evaluate_deduplication_accuracy.
  destruct (Evaluation.for_rows Evaluation.truth_body
              (filter Evaluation.is_duplicate df_truth) [])
    as [true_dups |] eqn:Htruth; [| discriminate].
  intros [= <-]. cbn [Evaluation.true_positives Evaluation.false_positives
                      Evaluation.false_negatives Evaluation.true_duplicates
                      Evaluation.predicted_duplicates Evaluation.precision
                      Evaluation.recall].
  assert (Ht : NoDup true_dups).
  { eapply for_rows_truth_body_NoDup; [constructor | exact Htruth]. }
  assert (Hp : NoDup (fold_left Evaluation.prediction_body df_pred []))
    by (apply fold_prediction_body_NoDup; constructor).
  set (predicted := fold_left Evaluation.prediction_body df_pred []) in *.
  pose proof (set_inter_diff_length Evaluation.pair_eq_dec predicted true_dups
                Hp Ht) as H1.
  pose proof (set_inter_diff_length Evaluation.pair_eq_dec true_dups predicted
                Ht Hp) as H2.
  rewrite (set_inter_length_comm Evaluation.pair_eq_dec predicted true_dups
             Hp Ht) in H2.
  rewrite H1, H2.
  split; [reflexivity |]. split; [reflexivity |].
  split; [reflexivity |]. split; [reflexivity |].
  destruct (share_range
              (List.length (ListSet.set_inter Evaluation.pair_eq_dec true_dups
                                              predicted))
              (List.length predicted)) as [Ha Hb]; [lia |].
  destruct (share_range
              (List.length (ListSet.set_inter Evaluation.pair_eq_dec true_dups
                                              predicted))
              (List.length true_dups)) as [Hc Hd]; [lia |].
  auto.
Qed.

Lemma evaluation_counts_add_up_witness :
  exists m,
    Evaluation.evaluate_deduplication_accuracy predictions_customers
                                               truth_customers = Some m /\
    Evaluation.true_duplicates m = 2 /\
    Evaluation.predicted_duplicates m = 2 /\
    Evaluation.true_positives m = 1 /\
    Evaluation.false_positives m = 1 /\
    Evaluation.false_negatives m = 1 /\
    (Evaluation.precision m == 1 # 2)%Q /\
    (Evaluation.recall m == 1 # 2)%Q /\
    (Evaluation.f1_score m == 1 # 2)%Q /\
    Evaluation.true_positives m + Evaluation.false_positives m
    = Evaluation.predicted_duplicates m.
Proof.
  destruct (Evaluation.evaluate_deduplication_accuracy predictions_customers
              truth_customers) as [m |] eqn:E.
  - destruct (evaluation_counts_add_up predictions_customers truth_customers
                m E) as [Hsum _].
    exists m. split; [reflexivity |].
    vm_compute in E. injection E as <-.
    repeat (split; [reflexivity |]). exact Hsum.
  - vm_compute in E. discriminate E.
Defined.


(** ** Rows that agree in every compared column *)

(** A fuzzy tier with a positive threshold never reports two rows whose
    normalized values agree in every compared column: their score is 0, so
    records that are identical in the compared columns are left to the
    exact matcher. *)
Theorem fuzzy_tier_never_reports_identical_rows
        (ratio : string -> string -> Q) (df : DataFrame) (rid s : Series)
        (block_col : string) (cols : list string) (threshold : Q) (tier : Tier)
        (max_block_size : nat) (ms : list Match) (i j : nat) :
  well_formed df ->
  range_index df ->
  getitem df "record_id" = Ok rid ->
  NoDup (values rid) ->
  getitem df block_col = Ok s ->
  (0 < threshold)%Q ->
  i < nrows df -> j < nrows df ->
  (forall col, In col (block_col :: cols) ->
               normalized_text (cell_at df i col)
               = normalized_text (cell_at df j col)) ->
  fuzzy_match_strategy ratio df (block_col :: cols) threshold tier
                       max_block_size = Ok ms ->
  forall m, In m ms ->
            id_pair m <> (nth i (values rid) NaN, nth j (values rid) NaN).
Proof.
  intros Hwf Hrange Hrid Hnd Hs Hth Hi Hj Hsame.
  rewrite (fuzzy_match_strategy_eq ratio df rid Hwf Hrid Hrange s block_col cols
             threshold tier max_block_size Hs).
  intros [= <-] m Hm Hid.
  assert (Hlen : List.length (values s) = nrows df).
  { destruct Hwf as [_ Hl]. rewrite Forall_forall in Hl.
    apply Hl. eapply getitem_Ok. exact Hs. }
  pose proof (rid_length df rid Hwf Hrid) as Hrl.
  apply in_flat_map in Hm as [b [Hb Hm]]. unfold block_matches in Hm.
  destruct (_ || _); [contradiction |].
  apply in_map_iff in Hm as [[i' j'] [<- Hp]].
  apply filter_In in Hp as [Hp Hacc].
  pose proof (block_indices_subseq df Hrange s b Hlen Hb) as Hsub.
  destruct (in_pairs_elements _ _ _ Hp) as [Hi' Hj'].
  apply (subseq_In _ _ _ Hsub) in Hi'. apply (subseq_In _ _ _ Hsub) in Hj'.
  apply in_seq in Hi'. apply in_seq in Hj'.
  unfold id_pair, match_of_pair in Hid. cbn [record_id_l record_id_r fst snd] in Hid.
  injection Hid as H1 H2.
  apply (proj1 (NoDup_nth (values rid) NaN) Hnd) in H1; [| lia | lia].
  apply (proj1 (NoDup_nth (values rid) NaN) Hnd) in H2; [| lia | lia].
  subst i' j'.
  unfold accepted, pair_score in Hacc. cbn [fst snd] in Hacc.
  rewrite contributing_scores_similarities, similarities_same in Hacc.
  - apply Qle_bool_iff in Hacc. simpl in Hacc.
    exact (Qlt_not_le _ _ Hth Hacc).
  - unfold compared_cells. apply Forall_forall. intros p Hin.
    apply in_map_iff in Hin as [col [<- Hcol]].
    apply filter_In in Hcol as [Hcol _]. simpl. now apply Hsame.
Qed.

Lemma fuzzy_tier_never_reports_identical_rows_witness :
  fuzzy_match_strategy indel_ratio df_apples ["remark"] 85 LOW 100
  = Ok [ mkMatch (Str "REC_000000") (Str "REC_000001") (2800 # 3000) LOW;
         mkMatch (Str "REC_000001") (Str "REC_000002") (2800 # 3000) LOW ]
  /\ (forall m,
         In m [ mkMatch (Str "REC_000000") (Str "REC_000001") (2800 # 3000) LOW;
                mkMatch (Str "REC_000001") (Str "REC_000002") (2800 # 3000) LOW ] ->
         id_pair m <> (Str "REC_000003", Str "REC_000004")).
Proof.
  assert (Hrun : fuzzy_match_strategy indel_ratio df_apples ["remark"] 85 LOW 100
                 = Ok [ mkMatch (Str "REC_000000") (Str "REC_000001")
                                (2800 # 3000) LOW;
                        mkMatch (Str "REC_000001") (Str "REC_000002")
                                (2800 # 3000) LOW ])
    by (vm_compute; reflexivity).
  split; [exact Hrun |].
  apply (fuzzy_tier_never_reports_identical_rows indel_ratio df_apples
           (mkSeries "record_id" object_
              [Str "REC_000000"; Str "REC_000001"; Str "REC_000002";
               Str "REC_000003"; Str "REC_000004"])
           (mkSeries "remark" object_
              [Str "green apple pie"; Str "green apple pye";
               Str "green apple pie"; Str "blue sky"; Str "blue sky"])
           "remark" [] 85%Q LOW 100 _ 3 4).
  - apply well_formedb_spec. reflexivity.
  - reflexivity.
  - reflexivity.
  - simpl. repeat (constructor; [simpl; intuition discriminate |]). constructor.
  - reflexivity.
  - reflexivity.
  - vm_compute. lia.
  - vm_compute. lia.
  - intros col [<- | []]. reflexivity.
  - exact Hrun.
Defined.
